(** * Harvard's Artifacts Collection: fetch, normalise, upsert

    A shallow embedding of [app.py]: the paginated fetch ([fetch_data]), the
    three-table upsert ([insert_frames]) over the schema of [init_db], and the
    two button handlers that drive them ("Collect Data" and "Insert"),
    together with the properties the specification states about them.

    What lies outside [app.py] is modelled as far as the program depends on
    it: the remote API is a function from a request to an exception or a
    payload; a DataFrame is the list of its rows; a table of the SQLite file
    is the list of its rows, written by [INSERT OR REPLACE] on its primary
    key, inside the transaction that [sqlite3] opens and [commit] ends.

    Text is ASCII, integers are unbounded, and a text is read as an integer
    when it is a sign and digits.  Python and SQLite read more texts as
    integers (white space around the digits, underscores), refuse integers
    beyond 64 bits, and SQLite stores a number bound to a TEXT column as
    text.  The statements on what the store holds after a write are made
    for batches typed as the schema ([typed]), on which the two agree. *)

From Stdlib Require Import ZArith QArith String Ascii List Lia.
From stdpp Require Import base decidable option list strings pretty gmap.

Close Scope Q_scope.
Open Scope string_scope.
Open Scope list_scope.
Open Scope Z_scope.

(** ** Values

    The fields of an API record and the cells of a DataFrame are dynamically
    typed.  Only scalars occur in the projected fields: JSON [null] (and an
    absent key, which [dict.get] turns into [None]), integers, reals and
    text.  A real is carried by its exact value. *)

Inductive value :=
  | VNone
  | VInt (n : Z)
  | VReal (q : Q)
  | VText (s : string).

#[global] Instance Q_eq_dec : EqDecision Q.
Proof. solve_decision. Defined.

#[global] Instance value_eq_dec : EqDecision value.
Proof. solve_decision. Defined.

(** [pd.isna]: [None] (and NaN, which the rationals do not have). *)
Definition isna (v : value) : bool :=
  match v with VNone => true | _ => false end.

Definition notna (v : value) : bool := negb (isna v).

(** The value a number denotes, with [1.0] and [1] identified: this is how
    pandas compares the cells of a column ([1 == 1.0] in Python, and a column
    mixing integers and reals is held as reals), and how SQLite's INTEGER
    affinity stores a real that is a whole number. *)
Definition whole (q : Q) : option Z :=
  let r := Qred q in
  if (Zpos (Qden r) =? 1) then Some (Qnum r) else None.

Definition numeric_key (v : value) : value :=
  match v with
  | VReal q => match whole q with Some n => VInt n | None => VReal (Qred q) end
  | _ => v
  end.

(** Decimal integer literals: an optional sign and at least one digit. *)
Definition digit (c : ascii) : option Z :=
  let n := Z.of_N (N_of_ascii c) in
  if (48 <=? n) && (n <=? 57) then Some (n - 48) else None.

Fixpoint digits (acc : Z) (s : string) : option Z :=
  match s with
  | EmptyString => Some acc
  | String c s' =>
      match digit c with
      | Some d => digits (10 * acc + d) s'
      | None => None
      end
  end.

Definition int_literal (s : string) : option Z :=
  match s with
  | EmptyString => None
  | String "-" EmptyString | String "+" EmptyString => None
  | String "-" s' => Z.opp <$> digits 0 s'
  | String "+" s' => digits 0 s'
  | _ => digits 0 s
  end.

(** Exceptions that leave [fetch_data] and [insert_frames]. *)
Inductive exn :=
  | RequestException (status : Z)   (* requests: timeout, or raise_for_status *)
  | KeyError (column : string)      (* pandas: a subset column that is missing *)
  | ValueError                      (* int() of a text that is no integer *)
  | TypeError                       (* int() of None *)
  | IntegrityError.                 (* sqlite3: datatype mismatch *)

Inductive result (A : Type) :=
  | Ok (a : A)
  | Raise (e : exn).
Arguments Ok {A} a.
Arguments Raise {A} e.

#[global] Instance result_ret : MRet result := λ A a, Ok a.

#[global] Instance result_bind : MBind result := λ A B k r,
  match r with
  | Ok a => k a
  | Raise e => Raise e
  end.

(** ** The remote API and the rows built from it *)

Definition API_KEY : string := "07e3776a-04b1-4c47-98c8-5a8dd7f08b51".
Definition DEFAULT_FETCH_LIMIT : Z := 2500.

(** A record of the API ([obj] in [fetch_data]).  A field holds [VNone] when
    its key is absent or null; [colors] is [obj.get("colors") or []]. *)
Module obj.
Record color := { hue : value; percent : value }.
Record t := {
  id : value; title : value; culture : value; dated : value;
  period : value; division : value; medium : value; dimensions : value;
  weight : value; department : value; accessionyear : value;
  imagecount : value; mediacount : value; colorcount : value;
  rank : value; datedbegin : value; datedend : value;
  colors : list color }.
End obj.

(** The rows of the three DataFrames, one field per column. *)
Module metadata.
Record row := {
  id : value; title : value; culture : value; dated : value;
  period : value; division : value; medium : value; dimensions : value;
  weight : value; department : value; accessionyear : value;
  classification : value }.
End metadata.

Module media.
Record row := {
  object_id : value; imagecount : value; mediacount : value;
  colorcount : value; rank : value; datedbegin : value; datedend : value }.
End media.

Module colors.
Record row := { object_id : value; hue : value; percentage : value }.
End colors.

#[global] Instance metadata_row_eq_dec : EqDecision metadata.row.
Proof. solve_decision. Defined.
#[global] Instance media_row_eq_dec : EqDecision media.row.
Proof. solve_decision. Defined.
#[global] Instance colors_row_eq_dec : EqDecision colors.row.
Proof. solve_decision. Defined.

(** The query parameters of one page request and the JSON payload of its
    answer: [records], and [info] when the key is there, with its [pages]
    when that key is there. *)
Record params := {
  apikey : string; classification : string; size : Z; page : Z }.

Record payload := { records : list obj.t; info : option (option Z) }.

(** The remote end: what [requests.get], [raise_for_status] and [r.json()]
    give for a request, an exception or a payload. *)
Definition remote := params → result payload.

(** The per-record mapping of the [for obj in records] loop. *)
Definition meta_of (classification : string) (o : obj.t) : metadata.row :=
  {| metadata.id := obj.id o;
     metadata.title := obj.title o;
     metadata.culture := obj.culture o;
     metadata.dated := obj.dated o;
     metadata.period := obj.period o;
     metadata.division := obj.division o;
     metadata.medium := obj.medium o;
     metadata.dimensions := obj.dimensions o;
     metadata.weight := obj.weight o;
     metadata.department := obj.department o;
     metadata.accessionyear := obj.accessionyear o;
     metadata.classification := VText classification |}.

Definition media_of (o : obj.t) : media.row :=
  {| media.object_id := obj.id o;
     media.imagecount := obj.imagecount o;
     media.mediacount := obj.mediacount o;
     media.colorcount := obj.colorcount o;
     media.rank := obj.rank o;
     media.datedbegin := obj.datedbegin o;
     media.datedend := obj.datedend o |}.

Definition color_of (o : obj.t) (c : obj.color) : colors.row :=
  {| colors.object_id := obj.id o;
     colors.hue := obj.hue c;
     colors.percentage := obj.percent c |}.

Definition colors_of (o : obj.t) : list colors.row :=
  color_of o <$> obj.colors o.

(** The variables of the [while] loop of [fetch_data]. *)
Record loop := {
  raw_records : list obj.t;
  meta_rows : list metadata.row;
  media_rows : list media.row;
  color_rows : list colors.row;
  cur_page : Z;
  collected : Z }.

Definition loop_init : loop :=
  {| raw_records := []; meta_rows := []; media_rows := []; color_rows := [];
     cur_page := 1; collected := 0 |}.

(** One pass of [for obj in records]: three appends. *)
Definition append_obj (classification : string) (s : loop) (o : obj.t) : loop :=
  {| raw_records := raw_records s;
     meta_rows := meta_rows s ++ [meta_of classification o];
     media_rows := media_rows s ++ [media_of o];
     color_rows := color_rows s ++ colors_of o;
     cur_page := cur_page s;
     collected := collected s |}.

(** The body of the loop from [raw_records.extend] to [page += 1]. *)
Definition absorb (classification : string) (recs : list obj.t) (s : loop) : loop :=
  let s1 := {| raw_records := raw_records s ++ recs;
               meta_rows := meta_rows s; media_rows := media_rows s;
               color_rows := color_rows s;
               cur_page := cur_page s; collected := collected s |} in
  let s2 := fold_left (append_obj classification) recs s1 in
  {| raw_records := raw_records s2;
     meta_rows := meta_rows s2; media_rows := media_rows s2;
     color_rows := color_rows s2;
     cur_page := cur_page s2 + 1;
     collected := collected s2 + Z.of_nat (length recs) |}.

(** ["info" in payload and page > payload["info"].get("pages", page)] *)
Definition past_last_page (p : payload) (page : Z) : bool :=
  match info p with
  | Some (Some pages) => pages <? page
  | Some None => page <? page
  | None => false
  end.

Definition request (classification : string) (page : Z) : params :=
  {| apikey := API_KEY; classification := classification;
     size := 100; page := page |}.

(** The [while collected < limit] loop.  [sent] is the log of the requests
    issued so far; the loop gives the log and either the exception that left
    it or its variables at exit.  [None]: the fuel ran out. *)
Fixpoint while_loop (fuel : nat) (get : remote) (classification : string)
    (limit : Z) (sent : list params) (s : loop)
  : option (list params * result loop) :=
  if collected s <? limit then
    match fuel with
    | O => None
    | S fuel' =>
        let q := request classification (cur_page s) in
        let sent' := sent ++ [q] in
        match get q with
        | Raise e => Some (sent', Raise e)
        | Ok p =>
            match records p with
            | [] => Some (sent', Ok s)
            | recs =>
                let s' := absorb classification recs s in
                if past_last_page p (cur_page s') then Some (sent', Ok s')
                else while_loop fuel' get classification limit sent' s'
            end
        end
    end
  else Some (sent, Ok s).

(** ** DataFrame operations *)

Section drop_duplicates.
Context {A K : Type} `{EqDecision K} (subset : A → K).

(** [drop_duplicates(subset=..., keep="first")]: a row is dropped when an
    earlier row has the same key. *)
Fixpoint keep_first (seen : list K) (l : list A) : list A :=
  match l with
  | [] => []
  | x :: l' =>
      if decide (subset x ∈ seen) then keep_first seen l'
      else x :: keep_first (subset x :: seen) l'
  end.

Definition drop_duplicates (l : list A) : list A := keep_first [] l.
End drop_duplicates.

(** The keys pandas compares: the cell values, numbers by their value. *)
Definition meta_key (r : metadata.row) : value := numeric_key (metadata.id r).
Definition media_key (r : media.row) : value := numeric_key (media.object_id r).

(** [pd.DataFrame(color_rows).dropna(subset=["hue"])].  A DataFrame built
    from an empty list has no columns, and [dropna] raises [KeyError] for a
    subset column that is missing. *)
Definition dropna_hue (rows : list colors.row) : result (list colors.row) :=
  match rows with
  | [] => Raise (KeyError "hue")
  | _ => Ok (filter (λ r, colors.hue r ≠ VNone) rows)
  end.

Definition frames : Type :=
  list metadata.row * list media.row * list colors.row * list obj.t.

(** The three statements after the loop, and the [return]. *)
Definition finish (s : loop) : result frames :=
  let meta_df := drop_duplicates meta_key (meta_rows s) in
  let media_df := drop_duplicates media_key (media_rows s) in
  colors_df ← dropna_hue (color_rows s);
  Ok (meta_df, media_df, colors_df, raw_records s).

Definition fetch_data (fuel : nat) (get : remote) (classification : string)
    (limit : Z) : option (list params * result frames) :=
  match while_loop fuel get classification limit [] loop_init with
  | None => None
  | Some (sent, Raise e) => Some (sent, Raise e)
  | Some (sent, Ok s) => Some (sent, finish s)
  end.

(** ** The store: the three tables of [init_db]

    A table is the list of its rows.  Only the conversions that decide the
    identity of a row are modelled: the INTEGER affinity of the key columns
    ([id], [object_id]).  A value bound to another column is kept as bound. *)

Record database := {
  artifact_metadata : list metadata.row;
  artifact_media : list media.row;
  artifact_colors : list colors.row }.

Definition empty_db : database :=
  {| artifact_metadata := []; artifact_media := []; artifact_colors := [] |}.

(** [CREATE TABLE IF NOT EXISTS]: a file that is not there yet gets the three
    empty tables, an existing one is left as it is. *)
Definition init_db (file : option database) : database :=
  match file with
  | Some db => db
  | None => empty_db
  end.

(** INTEGER affinity: a real that is a whole number and a text that is an
    integer literal are stored as that integer. *)
Definition integer_affinity (v : value) : value :=
  match v with
  | VReal q => match whole q with Some n => VInt n | None => v end
  | VText s => match int_literal s with Some n => VInt n | None => v end
  | _ => v
  end.

Definition as_rowid (v : value) : option Z :=
  match v with VInt n => Some n | _ => None end.

(** The rowid SQLite picks for a NULL [INTEGER PRIMARY KEY]: one more than
    the largest in use, 1 in an empty table. *)
Definition next_rowid (used : list Z) : Z :=
  match used with
  | [] => 1
  | n :: ns => foldr Z.max n ns + 1
  end.

(** The rowid of a row to be written into an [INTEGER PRIMARY KEY] column:
    NULL asks for a fresh one, an integer is itself, anything else is a
    datatype mismatch. *)
Definition rowid (v : value) (used : list Z) : result Z :=
  match integer_affinity v with
  | VNone => Ok (next_rowid used)
  | VInt n => Ok n
  | _ => Raise IntegrityError
  end.

Section rowid_table.
Context {A : Type} (key : A → value) (with_key : value → A → A).

(** [INSERT OR REPLACE] of one row into a table whose primary key is the
    rowid: the row that has this rowid, if any, is deleted, and the new row
    is inserted. *)
Definition replace_rowid (t : list A) (r : A) : result (list A) :=
  n ← rowid (key r) (omap (as_rowid ∘ key) t);
  Ok (filter (λ x, key x ≠ VInt n) t ++ [with_key (VInt n) r]).
End rowid_table.

Definition meta_with_id (v : value) (r : metadata.row) : metadata.row :=
  {| metadata.id := v;
     metadata.title := metadata.title r;
     metadata.culture := metadata.culture r;
     metadata.dated := metadata.dated r;
     metadata.period := metadata.period r;
     metadata.division := metadata.division r;
     metadata.medium := metadata.medium r;
     metadata.dimensions := metadata.dimensions r;
     metadata.weight := metadata.weight r;
     metadata.department := metadata.department r;
     metadata.accessionyear := metadata.accessionyear r;
     metadata.classification := metadata.classification r |}.

Definition media_with_id (v : value) (r : media.row) : media.row :=
  {| media.object_id := v;
     media.imagecount := media.imagecount r;
     media.mediacount := media.mediacount r;
     media.colorcount := media.colorcount r;
     media.rank := media.rank r;
     media.datedbegin := media.datedbegin r;
     media.datedend := media.datedend r |}.

Definition replace_metadata := replace_rowid metadata.id meta_with_id.
Definition replace_media := replace_rowid media.object_id media_with_id.

(** [artifact_colors] has the composite key [(object_id, hue)].  SQLite
    keeps NULLs of a composite primary key distinct: a row with a NULL in
    its key conflicts with no row. *)
Definition colors_key (r : colors.row) : value * value :=
  (colors.object_id r, colors.hue r).

Definition null_key (r : colors.row) : bool :=
  isna (colors.object_id r) || isna (colors.hue r).

(** The row as stored: [object_id] under its INTEGER affinity.  [hue] and
    [percentage] are kept as bound (the API gives a text or null for a hue;
    what the TEXT affinity makes of a number is not modelled). *)
Definition colors_stored (r : colors.row) : colors.row :=
  {| colors.object_id := integer_affinity (colors.object_id r);
     colors.hue := colors.hue r;
     colors.percentage := colors.percentage r |}.

Definition replace_colors (t : list colors.row) (r : colors.row)
  : result (list colors.row) :=
  let r' := colors_stored r in
  if null_key r' then Ok (t ++ [r'])
  else Ok (filter (λ x, colors_key x ≠ colors_key r') t ++ [r']).

(** [cur.executemany(sql, records)]: the statement once per row, in order,
    stopping at the first that raises. *)
Fixpoint executemany {A : Type} (stmt : list A → A → result (list A))
    (t : list A) (rows : list A) : result (list A) :=
  match rows with
  | [] => Ok t
  | r :: rows' => t' ← stmt t r; executemany stmt t' rows'
  end.

(** [int(v)] *)
Definition py_int (v : value) : result value :=
  match v with
  | VInt n => Ok (VInt n)
  | VReal q => Ok (VInt (Z.quot (Qnum q) (Zpos (Qden q))))
  | VText s =>
      match int_literal s with
      | Some n => Ok (VInt n)
      | None => Raise ValueError
      end
  | VNone => Raise TypeError
  end.

(** The tuple built for a metadata row: [int(v)] for an [id] that is not
    NA, the cell (or [None] for NA) for every other column. *)
Definition meta_vals (r : metadata.row) : result metadata.row :=
  v ← (if notna (metadata.id r) then py_int (metadata.id r) else Ok VNone);
  Ok (meta_with_id v r).

Fixpoint build_records {A B : Type} (vals : A → result B) (df : list A)
  : result (list B) :=
  match df with
  | [] => Ok []
  | r :: df' => v ← vals r; vs ← build_records vals df'; Ok (v :: vs)
  end.

(** A connection: the file as committed, and the tables as this connection
    sees them inside its open transaction.  [sqlite3] opens the transaction
    before the first INSERT; it is written to the file by [commit] only.  A
    connection that is dropped without [commit] leaves the file as it was. *)
Record connection := { file : database; txn : database }.

Definition get_conn (db : database) : connection :=
  {| file := db; txn := db |}.

Definition commit (c : connection) : connection :=
  {| file := txn c; txn := txn c |}.

Definition upsert_metadata (df : list metadata.row) (c : connection)
  : result connection :=
  match df with
  | [] => Ok c
  | _ =>
      recs ← build_records meta_vals df;
      t ← executemany replace_metadata (artifact_metadata (txn c)) recs;
      Ok {| file := file c;
            txn := {| artifact_metadata := t;
                      artifact_media := artifact_media (txn c);
                      artifact_colors := artifact_colors (txn c) |} |}
  end.

Definition upsert_media (df : list media.row) (c : connection)
  : result connection :=
  match df with
  | [] => Ok c
  | _ =>
      t ← executemany replace_media (artifact_media (txn c)) df;
      Ok {| file := file c;
            txn := {| artifact_metadata := artifact_metadata (txn c);
                      artifact_media := t;
                      artifact_colors := artifact_colors (txn c) |} |}
  end.

Definition upsert_colors (df : list colors.row) (c : connection)
  : result connection :=
  match df with
  | [] => Ok c
  | _ =>
      t ← executemany replace_colors (artifact_colors (txn c)) df;
      Ok {| file := file c;
            txn := {| artifact_metadata := artifact_metadata (txn c);
                      artifact_media := artifact_media (txn c);
                      artifact_colors := t |} |}
  end.

(** [insert_frames]: the three writes on one connection, then the single
    [conn.commit()].  An exception leaves the function before the commit:
    the file keeps the state it had. *)
Definition insert_frames (db : database) (meta_df : list metadata.row)
    (media_df : list media.row) (colors_df : list colors.row)
  : database * result () :=
  let conn := get_conn db in
  match
    c1 ← upsert_metadata meta_df conn;
    c2 ← upsert_media media_df c1;
    upsert_colors colors_df c2
  with
  | Ok c => (file (commit c), Ok ())
  | Raise e => (file conn, Raise e)
  end.

(** ** The session and the two handlers that fetch and insert *)

(** [str.lower], on the ASCII letters. *)
Definition lower_ascii (c : ascii) : ascii :=
  let n := N_of_ascii c in
  if ((65 <=? n) && (n <=? 90))%N then ascii_of_N (n + 32) else c.

Fixpoint lower (s : string) : string :=
  match s with
  | EmptyString => EmptyString
  | String c s' => String (lower_ascii c) (lower s')
  end.

(** [st.session_state].  A frame that is still [None] is the empty list: the
    handlers read the frames only once [collected] is set. *)
Record session := {
  meta_df : list metadata.row;
  media_df : list media.row;
  colors_df : list colors.row;
  raw_data : list obj.t;
  is_collected : bool;
  inserted : bool;
  show_choice : bool;
  migrate_click : bool;
  show_queries : bool;
  show_tables_after_insert : bool;
  combined_meta_df : list metadata.row;
  combined_media_df : list media.row;
  combined_colors_df : list colors.row;
  inserted_classifications : gset string }.

Definition session_defaults : session :=
  {| meta_df := []; media_df := []; colors_df := []; raw_data := [];
     is_collected := false; inserted := false; show_choice := false;
     migrate_click := false; show_queries := false;
     show_tables_after_insert := false;
     combined_meta_df := []; combined_media_df := [];
     combined_colors_df := [];
     inserted_classifications := ∅ |}.

(** What a run of the script does to the outside, in order: the messages it
    shows, the page requests it sends, the calls of [insert_frames]. *)
Inductive event :=
  | warning_enter_classification
  | error_already_inserted (classification : string)
  | http_get (q : params)
  | success_collected (n : nat) (classification : string)
  | error_failed_to_collect (e : exn)
  | error_already_exists (classification : string)
  | call_insert_frames
  | success_inserted
  | error_insert_failed (e : exn).

Record app := {
  state : session;
  store : database;
  events : list event }.

Definition app_start (file : option database) : app :=
  {| state := session_defaults; store := init_db file; events := [] |}.

Definition emit (evs : list event) (w : app) : app :=
  {| state := state w; store := store w; events := events w ++ evs |}.

(** The session after a fetch that returned. *)
Definition after_collect (f : frames) (s : session) : session :=
  let '(meta, media, colors, raw) := f in
  {| meta_df := meta; media_df := media; colors_df := colors; raw_data := raw;
     is_collected := true; inserted := false; show_choice := true;
     migrate_click := false; show_queries := false;
     show_tables_after_insert := false;
     combined_meta_df := combined_meta_df s;
     combined_media_df := combined_media_df s;
     combined_colors_df := combined_colors_df s;
     inserted_classifications := inserted_classifications s |}.

(** [if st.button("Collect Data"):] with the text of the input box. *)
Definition collect_data (get : remote) (classification : string) (w : app) : app :=
  if decide (classification = "") then emit [warning_enter_classification] w
  else if decide (lower classification ∈ inserted_classifications (state w))
  then emit [error_already_inserted classification] w
  else
    match fetch_data (Z.to_nat DEFAULT_FETCH_LIMIT) get classification
            DEFAULT_FETCH_LIMIT with
    | Some (sent, Ok f) =>
        {| state := after_collect f (state w);
           store := store w;
           events := events w ++ (http_get <$> sent)
                     ++ [success_collected (length (f.1.1.1)) classification] |}
    | Some (sent, Raise e) =>
        emit ((http_get <$> sent) ++ [error_failed_to_collect e]) w
    | None => w
    end.

Definition combined_colors_key (r : colors.row) : value * value :=
  (numeric_key (colors.object_id r), colors.hue r).

(** The session after [insert_frames] returned. *)
Definition after_insert (classification : string) (s : session) : session :=
  {| meta_df := meta_df s; media_df := media_df s; colors_df := colors_df s;
     raw_data := raw_data s;
     is_collected := is_collected s; inserted := true;
     show_choice := show_choice s;
     migrate_click := migrate_click s; show_queries := show_queries s;
     show_tables_after_insert := true;
     combined_meta_df :=
       drop_duplicates meta_key (combined_meta_df s ++ meta_df s);
     combined_media_df :=
       drop_duplicates media_key (combined_media_df s ++ media_df s);
     combined_colors_df :=
       drop_duplicates combined_colors_key
         (combined_colors_df s ++ colors_df s);
     inserted_classifications :=
       inserted_classifications s ∪ {[ lower classification ]} |}.

(** [if st.button("Insert"):] with the text of the input box.  The button is
    on the page only under [migrate_click] and [collected]. *)
Definition insert (classification : string) (w : app) : app :=
  if migrate_click (state w) && is_collected (state w) then
    if decide (lower classification ∈ inserted_classifications (state w))
    then emit [error_already_exists classification] w
    else
      let s := state w in
      match insert_frames (store w) (meta_df s) (media_df s) (colors_df s) with
      | (db, Ok _) =>
          {| state := after_insert classification s;
             store := db;
             events := events w ++ [call_insert_frames; success_inserted] |}
      | (db, Raise e) =>
          {| state := s;
             store := db;
             events := events w ++ [call_insert_frames; error_insert_failed e] |}
      end
  else w.

(** The three view buttons. *)
Definition set_view (choice migrate queries : bool) (w : app) : app :=
  let s := state w in
  {| state :=
       {| meta_df := meta_df s; media_df := media_df s;
          colors_df := colors_df s; raw_data := raw_data s;
          is_collected := is_collected s; inserted := inserted s;
          show_choice := choice; migrate_click := migrate;
          show_queries := queries; show_tables_after_insert := false;
          combined_meta_df := combined_meta_df s;
          combined_media_df := combined_media_df s;
          combined_colors_df := combined_colors_df s;
          inserted_classifications := inserted_classifications s |};
     store := store w;
     events := events w |}.

(** One run of the script: the button that was pressed, with the text of the
    classification box and, for a fetch, the remote end as it answers. *)
Inductive action :=
  | CollectData (get : remote) (classification : string)
  | CollectedData
  | MigrateToSQL
  | SQLQueries
  | Insert (classification : string).

Definition step (w : app) (a : action) : app :=
  match a with
  | CollectData get classification => collect_data get classification w
  | CollectedData => set_view true false false w
  | MigrateToSQL => set_view false true false w
  | SQLQueries => set_view false false true w
  | Insert classification => insert classification w
  end.

Definition run (w : app) (acts : list action) : app := fold_left step acts w.

(** ** Predicates used in the statements *)

(** What the loop of [fetch_data] keeps true of its variables: the three row
    lists are the images of the records gathered so far, which [collected]
    counts. *)
Definition loop_inv (classification : string) (s : loop) : Prop :=
  meta_rows s = meta_of classification <$> raw_records s
  ∧ media_rows s = media_of <$> raw_records s
  ∧ color_rows s = raw_records s ≫= colors_of
  ∧ collected s = Z.of_nat (length (raw_records s)).

(** The key pandas compares for an API record. *)
Definition obj_key (o : obj.t) : value := numeric_key (obj.id o).

(** Whole-row replacement on a key: the rows with the key of [r] go, [r]
    comes last. *)
Definition put {A K : Type} `{EqDecision K} (key : A → K)
    (t : list A) (r : A) : list A :=
  filter (λ x, key x ≠ key r) t ++ [r].

(** Of the rows of a batch, the last one of every key. *)
Fixpoint keep_last {A K : Type} `{EqDecision K} (key : A → K)
    (rs : list A) : list A :=
  match rs with
  | [] => []
  | r :: rs' =>
      if decide (key r ∈ key <$> rs') then keep_last key rs'
      else r :: keep_last key rs'
  end.

(** A batch for [insert_frames], and the state of the file after it. *)
Definition batch : Type :=
  list metadata.row * list media.row * list colors.row.

Definition upsert (db : database) (b : batch) : database :=
  (insert_frames db b.1.1 b.1.2 b.2).1.

(** No two rows of a table share its primary key. *)
Definition unique_keys (db : database) : Prop :=
  NoDup (metadata.id <$> artifact_metadata db)
  ∧ NoDup (media.object_id <$> artifact_media db)
  ∧ NoDup (colors_key <$> artifact_colors db).

(** The rows of a batch have their primary keys: no NULL in a key column. *)
Definition colors_keyed (df : list colors.row) : Prop :=
  Forall (λ r, null_key r = false) df.

Definition keyed (b : batch) : Prop :=
  Forall (λ r, metadata.id r ≠ VNone) b.1.1
  ∧ Forall (λ r, media.object_id r ≠ VNone) b.1.2
  ∧ colors_keyed b.2.

(** What SQLite stores for a media row that has its key, if it takes it. *)
Definition media_stored (r : media.row) : result media.row :=
  match integer_affinity (media.object_id r) with
  | VInt n => Ok (media_with_id (VInt n) r)
  | _ => Raise IntegrityError
  end.

(** Two texts that are equal up to the case of their letters: of the same
    length, and at every place the same character or the capital and the
    small form of one of the 26 letters. *)
Definition letter_pair (capital small : ascii) : Prop :=
  ∃ i : nat, (i < 26)%nat
             ∧ capital = ascii_of_nat (65 + i) ∧ small = ascii_of_nat (97 + i).

Definition same_letter (a b : ascii) : Prop :=
  a = b ∨ letter_pair a b ∨ letter_pair b a.

Inductive caseless : string → string → Prop :=
  | caseless_empty : caseless EmptyString EmptyString
  | caseless_letter a b s t :
      same_letter a b → caseless s t → caseless (String a s) (String b t).

(** ** Sample data *)

Definition artifact (i : value) (title : string) (cs : list obj.color) : obj.t :=
  {| obj.id := i; obj.title := VText title;
     obj.culture := VNone; obj.dated := VNone; obj.period := VNone;
     obj.division := VNone; obj.medium := VNone; obj.dimensions := VNone;
     obj.weight := VNone; obj.department := VNone; obj.accessionyear := VNone;
     obj.imagecount := VNone; obj.mediacount := VNone; obj.colorcount := VNone;
     obj.rank := VNone; obj.datedbegin := VNone; obj.datedend := VNone;
     obj.colors := cs |}.

Definition red (percent : Q) : obj.color :=
  {| obj.hue := VText "Red"; obj.percent := VReal percent |}.

Definition no_hue : obj.color :=
  {| obj.hue := VNone; obj.percent := VReal (1 # 4) |}.

Definition coin (i : Z) : obj.t := artifact (VInt i) "Coin" [red (1 # 2)].

(** Two full pages of a hundred records each, then nothing. *)
Definition two_pages : remote := λ q,
  if page q =? 1 then
    Ok {| records := coin <$> seqZ 1 100; info := Some (Some 2) |}
  else if page q =? 2 then
    Ok {| records := coin <$> seqZ 101 100; info := Some (Some 2) |}
  else Ok {| records := []; info := Some (Some 2) |}.

(** One page in which the id 7 comes twice, with a colour that has no hue
    and the hue Red twice. *)
Definition twice_seven : remote := λ q,
  if page q =? 1 then
    Ok {| records := [artifact (VInt 7) "first" [red (1 # 2); no_hue];
                      artifact (VInt 7) "second" [red (1 # 3)]];
          info := Some (Some 1) |}
  else Ok {| records := []; info := Some (Some 1) |}.

(** A full first page, then the server answers 503. *)
Definition second_page_fails : remote := λ q,
  if page q =? 1 then
    Ok {| records := coin <$> seqZ 1 100; info := Some (Some 30) |}
  else Raise (RequestException 503).

(** Batches: one with the key 1 twice in its colours, one whose media row
    has a text that is no integer for its key. *)
Definition coin_batch : batch :=
  ([meta_of "Coins" (coin 1); meta_of "Coins" (coin 2)],
   [media_of (coin 1); media_of (coin 2)],
   [color_of (coin 1) (red (1 # 2)); color_of (coin 2) (red (1 # 5));
    color_of (coin 1) (red (1 # 3))]).

Definition bad_media_batch : batch :=
  ([meta_of "Coins" (coin 1)],
   [media_of (artifact (VText "abc") "Coin" [])],
   [color_of (coin 1) (red (1 # 2))]).

(** A session in which "Coins" has been collected and the "Migrate to SQL"
    view is open. *)
Definition collected_coins : app :=
  run (app_start None) [CollectData twice_seven "Coins"; MigrateToSQL].

(** The records a request brings: those of its payload, none when the
    request fails. *)
Definition page_records (get : remote) (q : params) : list obj.t :=
  match get q with
  | Ok p => records p
  | Raise _ => []
  end.

(** One page with an artifact that has no colour entry, then nothing. *)
Definition no_color_page : remote := λ q,
  if page q =? 1 then
    Ok {| records := [artifact (VInt 1) "Vase" []]; info := Some (Some 1) |}
  else Ok {| records := []; info := Some (Some 1) |}.

(** *** Batches typed as the schema

    A batch typed as [init_db] types the columns.  An integer cell is one
    that a float64 holds exactly and SQLite stores as it is. *)
Definition small (n : Z) : bool := (- 2 ^ 53 <? n) && (n <? 2 ^ 53).

Definition is_integer (v : value) : bool :=
  match v with VInt n => small n | _ => false end.

Definition integer_or_null (v : value) : bool :=
  match v with VNone => true | VInt n => small n | _ => false end.

Definition number_or_null (v : value) : bool :=
  match v with VNone | VReal _ => true | VInt n => small n | _ => false end.

Definition is_text (v : value) : bool :=
  match v with VText _ => true | _ => false end.

Definition text_or_null (v : value) : bool :=
  match v with VNone | VText _ => true | _ => false end.

Definition meta_typed (r : metadata.row) : bool :=
  is_integer (metadata.id r)
  && text_or_null (metadata.title r) && text_or_null (metadata.culture r)
  && text_or_null (metadata.dated r) && text_or_null (metadata.period r)
  && text_or_null (metadata.division r) && text_or_null (metadata.medium r)
  && text_or_null (metadata.dimensions r) && text_or_null (metadata.weight r)
  && text_or_null (metadata.department r)
  && integer_or_null (metadata.accessionyear r)
  && text_or_null (metadata.classification r).

Definition media_typed (r : media.row) : bool :=
  is_integer (media.object_id r)
  && integer_or_null (media.imagecount r)
  && integer_or_null (media.mediacount r)
  && integer_or_null (media.colorcount r)
  && number_or_null (media.rank r)
  && integer_or_null (media.datedbegin r)
  && integer_or_null (media.datedend r).

Definition colors_typed (r : colors.row) : bool :=
  is_integer (colors.object_id r) && is_text (colors.hue r)
  && number_or_null (colors.percentage r).

(** A media frame in which every cell is an integer.  pandas holds such a
    frame as int64, and [iterrows] then yields numpy integers, which
    [sqlite3] does not bind as integers; what [insert_frames] does with such
    a frame is left out of the statements about typed batches.  With a
    missing value or a real in it the frame is float64 or object, and its
    cells are bound as numbers. *)
Definition media_cells (r : media.row) : list value :=
  [media.object_id r; media.imagecount r; media.mediacount r;
   media.colorcount r; media.rank r; media.datedbegin r; media.datedend r].

Definition int64_frame (df : list media.row) : bool :=
  match df with
  | [] => false
  | _ =>
      forallb (λ r, forallb (λ v, match v with VInt _ => true | _ => false end)
                      (media_cells r)) df
  end.

Definition typed (b : batch) : Prop :=
  forallb meta_typed b.1.1 = true
  ∧ forallb media_typed b.1.2 = true
  ∧ forallb colors_typed b.2 = true
  ∧ int64_frame b.1.2 = false.

(** An artifact that comes back under another classification. *)
Definition coin_as_medal : batch :=
  ([meta_of "Medals" (coin 1)], [media_of (coin 1)],
   [color_of (coin 1) (red (1 # 7))]).

(** A page whose record has a text that is no integer for its id, and the
    session that has collected it and opened the "Migrate to SQL" view. *)
Definition text_id_page : remote := λ q,
  if page q =? 1 then
    Ok {| records := [artifact (VText "abc") "Coin" [red (1 # 2)]];
          info := Some (Some 1) |}
  else Ok {| records := []; info := Some (Some 1) |}.

Definition collected_text_id : app :=
  run (app_start None) [CollectData text_id_page "Coins"; MigrateToSQL].

(** ** Question 14 of the query page

    The id typed for "List all colors used for a given artifact ID".  Text
    is ASCII here, as for [lower]: [isspace] and [isdigit] are Python's on
    ASCII text. *)

Definition isspace (c : ascii) : bool :=
  let n := N_of_ascii c in
  ((9 <=? n) && (n <=? 13) || (28 <=? n) && (n <=? 32))%N.

Definition is_digit (c : ascii) : bool :=
  match digit c with Some _ => true | None => false end.

Fixpoint lstrip (s : string) : string :=
  match s with
  | EmptyString => EmptyString
  | String c s' => if isspace c then lstrip s' else s
  end.

Fixpoint rstrip (s : string) : string :=
  match s with
  | EmptyString => EmptyString
  | String c s' =>
      match rstrip s' with
      | EmptyString => if isspace c then EmptyString else String c EmptyString
      | r => String c r
      end
  end.

(** [str.strip()] *)
Definition strip (s : string) : string := rstrip (lstrip s).

Fixpoint all_digits (s : string) : bool :=
  match s with
  | EmptyString => true
  | String c s' => is_digit c && all_digits s'
  end.


(** [str.isdigit()]: at least one character, and digits only. *)
Definition isdigit (s : string) : bool :=
  match s with
  | EmptyString => false
  | _ => all_digits s
  end.

(** The statement of question 14 for an id, [str(int)] being the decimal
    form. *)
Definition sql_14 (n : Z) : string :=
  "SELECT hue, percentage FROM artifact_colors WHERE object_id = "
  +:+ pretty n +:+ ";".

(** [sql_to_run] when question 14 is chosen: the statement when the text is
    not empty and, stripped, is made of digits; [None] (and the hint to enter
    a numeric id) otherwise.  [int(artifact_id)] ignores the white space
    around the digits. *)
Definition sql_to_run_14 (artifact_id : string) : option string :=
  if bool_decide (artifact_id ≠ "") && isdigit (strip artifact_id) then
    sql_14 <$> int_literal (strip artifact_id)
  else None.

(** What the statement of question 14 selects: hue and percentage of the
    colour rows of the object. *)
Definition select_hue_percentage (db : database) (n : Z)
  : list (value * value) :=
  (λ r, (colors.hue r, colors.percentage r))
    <$> filter (λ r, colors.object_id r = VInt n) (artifact_colors db).

(** A session in which the artifact 7 has been inserted as a coin and
    collected again as a medal. *)
Definition collected_again : app :=
  run (app_start None)
    [CollectData twice_seven "Coins"; MigrateToSQL; Insert "Coins";
     CollectData twice_seven "Medals"; MigrateToSQL].

(** A text of ASCII characters none of which is a digit: [int()] raises
    [ValueError] for it. *)
Fixpoint no_digit (s : string) : bool :=
  match s with
  | EmptyString => true
  | String c s' =>
      (N_of_ascii c <? 128)%N && negb (is_digit c) && no_digit s'
  end.

(** One page with a record that has no id and the hue Red twice, and the
    frames [fetch_data] makes of it. *)
Definition idless_page : remote := λ q,
  if page q =? 1 then
    Ok {| records := [artifact VNone "Coin" [red (1 # 2); red (1 # 3)]];
          info := Some (Some 1) |}
  else Ok {| records := []; info := Some (Some 1) |}.

Definition idless_batch : batch :=
  ([meta_of "Coins" (artifact VNone "Coin" [red (1 # 2); red (1 # 3)])],
   [media_of (artifact VNone "Coin" [red (1 # 2); red (1 # 3)])],
   [color_of (artifact VNone "Coin" [red (1 # 2); red (1 # 3)]) (red (1 # 2));
    color_of (artifact VNone "Coin" [red (1 # 2); red (1 # 3)]) (red (1 # 3))]).

(** * Properties *)

(** ** The fetch loop *)

Section fetch_loop.
Context (get : remote) (classification : string) (limit : Z).

Lemma fold_append_obj recs s :
  fold_left (append_obj classification) recs s =
  {| raw_records := raw_records s;
     meta_rows := meta_rows s ++ (meta_of classification <$> recs);
     media_rows := media_rows s ++ (media_of <$> recs);
     color_rows := color_rows s ++ (recs ≫= colors_of);
     cur_page := cur_page s;
     collected := collected s |}.
Proof.
  revert s. induction recs as [|o recs IH]; intros s; simpl.
  - rewrite !app_nil_r. by destruct s.
  - rewrite IH. simpl. by rewrite <- !app_assoc.
Qed.

Lemma absorb_eq recs s :
  absorb classification recs s =
  {| raw_records := raw_records s ++ recs;
     meta_rows := meta_rows s ++ (meta_of classification <$> recs);
     media_rows := media_rows s ++ (media_of <$> recs);
     color_rows := color_rows s ++ (recs ≫= colors_of);
     cur_page := cur_page s + 1;
     collected := collected s + Z.of_nat (length recs) |}.
Proof. unfold absorb. by rewrite fold_append_obj. Qed.

(** A page that is not empty moves [collected] up. *)
Lemma absorb_collected o recs s :
  collected s < collected (absorb classification (o :: recs) s).
Proof. rewrite absorb_eq. simpl. lia. Qed.

Lemma loop_inv_init : loop_inv classification loop_init.
Proof. by repeat split. Qed.

Lemma loop_inv_absorb recs s :
  loop_inv classification s → loop_inv classification (absorb classification recs s).
Proof.
  intros (Hm & Hd & Hc & Hn). rewrite absorb_eq.
  repeat split; simpl.
  - by rewrite Hm, fmap_app.
  - by rewrite Hd, fmap_app.
  - by rewrite Hc, bind_app.
  - rewrite Hn, length_app. lia.
Qed.

(** Whatever holds at entry and is kept by a pass holds at exit. *)
Lemma while_loop_exit (P : loop → Prop) fuel sent s sent' s' :
  (∀ s p, P s → collected s < limit →
          get (request classification (cur_page s)) = Ok p →
          P (absorb classification (records p) s)) →
  P s →
  while_loop fuel get classification limit sent s = Some (sent', Ok s') →
  P s'.
Proof.
  intros Hstep. revert sent s.
  induction fuel as [|fuel IH]; intros sent s HP; simpl.
  - destruct (collected s <? limit); [done|]. by intros [= _ <-].
  - destruct (collected s <? limit) eqn:Hlt; [|by intros [= _ <-]].
    apply Z.ltb_lt in Hlt.
    destruct (get _) as [p|e] eqn:Hget; [|done].
    specialize (Hstep s p HP Hlt Hget).
    destruct (records p) as [|o recs] eqn:Hrecs; [by intros [= _ <-]|].
    destruct (past_last_page _ _).
    + by intros [= _ <-].
    + by apply IH.
Qed.

(** The loop needs at most [limit - collected] passes. *)
Lemma while_loop_fuel n : ∀ fuel sent s,
  (Z.to_nat (limit - collected s) ≤ n)%nat → (n ≤ fuel)%nat →
  ∃ out, while_loop fuel get classification limit sent s = Some out
         ∧ while_loop n get classification limit sent s = Some out.
Proof.
  induction n as [|n IH]; intros fuel sent s Hn Hfuel.
  - assert ((collected s <? limit) = false) as Hge by (apply Z.ltb_ge; lia).
    exists (sent, Ok s). destruct fuel; simpl; by rewrite Hge.
  - destruct fuel as [|fuel]; [lia|]. simpl.
    destruct (collected s <? limit) eqn:Hlt; [|by eexists].
    apply Z.ltb_lt in Hlt.
    destruct (get _) as [p|e]; [|by eexists].
    destruct (records p) as [|o recs] eqn:Hrecs; [by eexists|].
    destruct (past_last_page _ _); [by eexists|].
    apply IH; [|lia].
    pose proof (absorb_collected o recs s). lia.
Qed.

(** The requests of a loop extend the log, and the loop stops at the first
    request that fails, with the exception of that request. *)
Lemma while_loop_sent fuel : ∀ sent s sent' out,
  while_loop fuel get classification limit sent s = Some (sent', out) →
  ∃ new, sent' = sent ++ new
         ∧ ∀ q e, q ∈ new → get q = Raise e → out = Raise e.
Proof.
  induction fuel as [|fuel IH]; intros sent s sent' out; simpl.
  - destruct (collected s <? limit); [done|].
    intros [= <- <-]. exists []. rewrite app_nil_r. split; [done|].
    intros q e Hq. by apply elem_of_nil in Hq.
  - destruct (collected s <? limit).
    2:{ intros [= <- <-]. exists []. rewrite app_nil_r. split; [done|].
        intros q e Hq. by apply elem_of_nil in Hq. }
    set (q0 := request classification (cur_page s)).
    destruct (get q0) as [p|e0] eqn:Hget.
    2:{ intros [= <- <-]. exists [q0]. split; [done|].
        intros q e ->%list_elem_of_singleton Hq. congruence. }
    assert (∀ q e, q ∈ [q0] → get q = Raise e → out = Raise e) as Hone.
    { intros q e ->%list_elem_of_singleton Hq. congruence. }
    destruct (records p) as [|o recs].
    { intros [= <- <-]. by exists [q0]. }
    destruct (past_last_page _ _).
    { intros [= <- <-]. by exists [q0]. }
    intros (new & -> & Hnew)%IH.
    exists (q0 :: new). split; [by rewrite <- app_assoc|].
    intros q e [->|Hq]%elem_of_cons Hq'; [congruence|by eapply Hnew].
Qed.
End fetch_loop.

(** ** Two facts about [filter] *)

Lemma filter_none {A} (P : A → Prop) `{∀ x, Decision (P x)} (l : list A) :
  (∀ x, x ∈ l → ¬ P x) → filter P l = [].
Proof.
  induction l as [|y l IH]; intros Hl; [done|].
  rewrite filter_cons_False by (apply Hl; by left).
  apply IH. intros x Hx. apply Hl. by right.
Qed.

Lemma filter_all {A} (P : A → Prop) `{∀ x, Decision (P x)} (l : list A) :
  (∀ x, x ∈ l → P x) → filter P l = l.
Proof.
  induction l as [|y l IH]; intros Hl; [done|].
  rewrite filter_cons_True by (apply Hl; by left).
  f_equal. apply IH. intros x Hx. apply Hl. by right.
Qed.

(** ** [drop_duplicates] keeps the first row of every key *)

Section drop_duplicates_facts.
Context {A K : Type} `{EqDecision K} (key : A → K).

Lemma keep_first_unseen seen l x :
  x ∈ keep_first key seen l → key x ∉ seen.
Proof.
  revert seen. induction l as [|y l IH]; intros seen; simpl.
  - by intros ?%elem_of_nil.
  - destruct (decide (key y ∈ seen)) as [|Hy]; [by apply IH|].
    intros [->|Hx%IH]%elem_of_cons; [done|].
    intros Hin. apply Hx. by right.
Qed.

Lemma keep_first_sublist seen l : sublist (keep_first key seen l) l.
Proof.
  revert seen. induction l as [|y l IH]; intros seen; simpl; [done|].
  destruct (decide _); [by apply sublist_cons|by apply sublist_skip].
Qed.

Lemma keep_first_NoDup seen l : NoDup (key <$> keep_first key seen l).
Proof.
  revert seen. induction l as [|y l IH]; intros seen; simpl.
  - constructor.
  - destruct (decide (key y ∈ seen)); [by apply IH|].
    rewrite fmap_cons. constructor; [|by apply IH].
    intros (x & Hk & Hx%keep_first_unseen)%list_elem_of_fmap.
    apply Hx. rewrite <- Hk. by left.
Qed.

(** Of the rows with key [k], only the first one is kept. *)
Lemma keep_first_filter seen l1 x l2 :
  key x ∉ seen → (∀ y, y ∈ l1 → key y ≠ key x) →
  filter (λ y, key y = key x) (keep_first key seen (l1 ++ x :: l2)) = [x].
Proof.
  revert seen. induction l1 as [|y l1 IH]; intros seen Hseen Hl1; simpl.
  - rewrite decide_False by done.
    rewrite filter_cons_True by done. f_equal.
    apply filter_none.
    intros z Hz%keep_first_unseen Hk. apply Hz. rewrite Hk. by left.
  - assert (key y ≠ key x) as Hy by (apply Hl1; by left).
    assert (∀ z, z ∈ l1 → key z ≠ key x) as Hl1'
      by (intros z Hz; apply Hl1; by right).
    destruct (decide (key y ∈ seen)); [by apply IH|].
    rewrite filter_cons_False by done.
    apply IH; [|done].
    intros [Heq|Hin]%elem_of_cons; [by apply Hy|by apply Hseen].
Qed.

Lemma drop_duplicates_NoDup l : NoDup (key <$> drop_duplicates key l).
Proof. apply keep_first_NoDup. Qed.

Lemma drop_duplicates_first l1 x l2 :
  (∀ y, y ∈ l1 → key y ≠ key x) →
  filter (λ y, key y = key x) (drop_duplicates key (l1 ++ x :: l2)) = [x].
Proof. apply keep_first_filter. by intros ?%elem_of_nil. Qed.

(** Every key of a list has a first row. *)
Lemma first_occurrence (l : list A) (k : K) :
  k ∈ key <$> l →
  ∃ l1 x l2, l = l1 ++ x :: l2 ∧ key x = k ∧ ∀ y, y ∈ l1 → key y ≠ k.
Proof.
  induction l as [|y l IH]; simpl.
  - by intros ?%elem_of_nil.
  - intros Hk. destruct (decide (key y = k)) as [Hy|Hy].
    + exists [], y, l. split; [done|]. split; [done|].
      by intros ? ?%elem_of_nil.
    + apply elem_of_cons in Hk as [Hk|Hk]; [done|].
      destruct (IH Hk) as (l1 & x & l2 & -> & Hx & Hl1).
      exists (y :: l1), x, l2. split; [done|]. split; [done|].
      intros z [->|Hz]%elem_of_cons; [done|by apply Hl1].
Qed.
End drop_duplicates_facts.

(** ** [fetch_data] *)

Lemma fetch_data_ok fuel get classification limit sent meta media colors raw :
  fetch_data fuel get classification limit
    = Some (sent, Ok (meta, media, colors, raw)) →
  meta = drop_duplicates meta_key (meta_of classification <$> raw)
  ∧ media = drop_duplicates media_key (media_of <$> raw)
  ∧ colors = filter (λ r, colors.hue r ≠ VNone) (raw ≫= colors_of).
Proof.
  unfold fetch_data.
  destruct (while_loop _ _ _ _ _ _) as [[sent' [s|e]]|] eqn:Hloop; [|done..].
  pose proof (while_loop_exit get classification limit (loop_inv classification)
                _ _ _ _ _
                (λ s p Hs _ _, loop_inv_absorb classification (records p) s Hs)
                (loop_inv_init classification) Hloop) as (Hm & Hd & Hc & _).
  unfold finish, dropna_hue. rewrite Hm, Hd, Hc.
  destruct (raw_records s ≫= colors_of) eqn:Hcs; simpl; [done|].
  intros [= _ <- <- <- <-]. by rewrite Hcs.
Qed.

(** With [limit] passes of fuel, or more, [fetch_data] gives its result. *)
Lemma fetch_data_enough_fuel get classification limit fuel :
  (Z.to_nat limit ≤ fuel)%nat →
  ∃ out, fetch_data fuel get classification limit = Some out
         ∧ fetch_data (Z.to_nat limit) get classification limit = Some out.
Proof.
  intros Hfuel.
  destruct (while_loop_fuel get classification limit (Z.to_nat limit)
              fuel [] loop_init) as (out & Hout & Hout'); [simpl; lia|lia|].
  unfold fetch_data. rewrite Hout, Hout'.
  destruct out as [sent [s|e]]; by eexists.
Qed.

(** The fetch of the "Collect Data" handler always returns. *)
Lemma fetch_data_default get classification :
  is_Some (fetch_data (Z.to_nat DEFAULT_FETCH_LIMIT) get classification
             DEFAULT_FETCH_LIMIT).
Proof.
  destruct (fetch_data_enough_fuel get classification DEFAULT_FETCH_LIMIT
              (Z.to_nat DEFAULT_FETCH_LIMIT)) as (out & -> & _); [lia|].
  by eexists.
Qed.

(** C9.  [fetch_data] terminates, whatever the remote end answers: a page
    that is not empty moves [collected] up by at least one, and with
    [limit] passes of fuel (or more) the function gives its result, the same
    one for every larger amount of fuel. *)
Theorem fetch_data_terminates (get : remote) (classification : string) (limit : Z) :
  (∀ o recs s, collected s < collected (absorb classification (o :: recs) s))
  ∧ ∃ out, ∀ extra : nat,
      fetch_data (Z.to_nat limit + extra) get classification limit = Some out.
Proof.
  split; [apply absorb_collected|].
  destruct (fetch_data_enough_fuel get classification limit (Z.to_nat limit))
    as (out & Hout & _); [lia|].
  exists out. intros extra.
  destruct (fetch_data_enough_fuel get classification limit
              (Z.to_nat limit + extra)) as (out' & -> & Hout'); [lia|].
  congruence.
Qed.

(** C5.  In the frames [fetch_data] returns, every id of the gathered records
    has exactly one metadata row and exactly one media row, and they are the
    rows of the first record with that id. *)
Theorem fetch_data_dedup_first fuel get classification limit
    sent meta media colors raw (k : value) :
  fetch_data fuel get classification limit
    = Some (sent, Ok (meta, media, colors, raw)) →
  k ∈ obj_key <$> raw →
  ∃ l1 o l2,
    raw = l1 ++ o :: l2 ∧ obj_key o = k ∧ (∀ o', o' ∈ l1 → obj_key o' ≠ k)
    ∧ filter (λ r, meta_key r = k) meta = [meta_of classification o]
    ∧ filter (λ r, media_key r = k) media = [media_of o].
Proof.
  intros (-> & -> & _)%fetch_data_ok Hk.
  destruct (first_occurrence obj_key raw k Hk) as (l1 & o & l2 & -> & <- & Hl1).
  exists l1, o, l2. repeat split; [done|..].
  - rewrite fmap_app, fmap_cons.
    apply (drop_duplicates_first meta_key _ (meta_of classification o)).
    intros y (o' & -> & Ho')%list_elem_of_fmap. by apply Hl1.
  - rewrite fmap_app, fmap_cons.
    apply (drop_duplicates_first media_key _ (media_of o)).
    intros y (o' & -> & Ho')%list_elem_of_fmap. by apply Hl1.
Qed.

Lemma fetch_data_dedup_first_witness :
  ∃ l1 o l2,
    [artifact (VInt 7) "first" [red (1 # 2); no_hue];
     artifact (VInt 7) "second" [red (1 # 3)]] = l1 ++ o :: l2
    ∧ obj_key o = VInt 7 ∧ (∀ o', o' ∈ l1 → obj_key o' ≠ VInt 7)
    ∧ filter (λ r, meta_key r = VInt 7)
        [meta_of "Coins" (artifact (VInt 7) "first" [red (1 # 2); no_hue])]
      = [meta_of "Coins" o]
    ∧ filter (λ r, media_key r = VInt 7)
        [media_of (artifact (VInt 7) "first" [red (1 # 2); no_hue])]
      = [media_of o].
Proof.
  apply (fetch_data_dedup_first 3 twice_seven "Coins" 10
           [request "Coins" 1] _ _
           [color_of (artifact (VInt 7) "first" [red (1 # 2); no_hue]) (red (1 # 2));
            color_of (artifact (VInt 7) "second" [red (1 # 3)]) (red (1 # 3))]).
  - reflexivity.
  - left.
Defined.

(** X1.  How far the loop can run past [limit]: by less than one page.  When
    no page has more than [page_size] records, a fetch returns fewer than
    [limit + page_size] raw records. *)
Lemma fetch_data_overshoot fuel get classification limit (page_size : Z)
    sent meta media colors raw :
  (∀ q p, get q = Ok p → Z.of_nat (length (records p)) ≤ page_size) →
  0 < limit → 0 < page_size →
  fetch_data fuel get classification limit
    = Some (sent, Ok (meta, media, colors, raw)) →
  Z.of_nat (length raw) < limit + page_size.
Proof.
  intros Hsize Hlimit Hpage. unfold fetch_data.
  destruct (while_loop _ _ _ _ _ _) as [[sent' [s|e]]|] eqn:Hloop; [|done..].
  assert (loop_inv classification s ∧ collected s < limit + page_size)
    as [(_ & _ & _ & Hn) Hlt].
  { eapply (while_loop_exit get classification limit
      (λ s, loop_inv classification s ∧ collected s < limit + page_size));
      [| |exact Hloop].
    - intros s0 p [Hinv Hs0] Hlt Hget. split; [by apply loop_inv_absorb|].
      rewrite absorb_eq. simpl. specialize (Hsize _ _ Hget). lia.
    - split; [apply loop_inv_init|simpl; lia]. }
  unfold finish. destruct (dropna_hue _); simpl; [|done].
  intros [= _ <- <- <- <-]. lia.
Qed.

(** C2.  With a limit of 150 and an API that serves full pages of 100
    records, [fetch_data] returns 200 raw records: the loop tests the limit
    before a page only, and takes the whole page. *)
Theorem fetch_data_exceeds_limit :
  ∃ sent meta media colors raw,
    fetch_data (Z.to_nat 150) two_pages "Coins" 150
      = Some (sent, Ok (meta, media, colors, raw))
    ∧ sent = [request "Coins" 1; request "Coins" 2]
    ∧ length raw = 200%nat
    ∧ length meta = 200%nat.
Proof.
  do 5 eexists. split; [vm_compute; reflexivity|].
  split; [reflexivity|]. split; reflexivity.
Qed.

Lemma fetch_data_failed_request fuel get classification limit sent out q e :
  fetch_data fuel get classification limit = Some (sent, out) →
  q ∈ sent → get q = Raise e → out = Raise e.
Proof.
  unfold fetch_data.
  destruct (while_loop _ _ _ _ _ _) as [[sent' r]|] eqn:Hloop; [|done].
  apply while_loop_sent in Hloop as (new & -> & Hnew).
  intros Hout Hq Hget. specialize (Hnew q e).
  destruct r as [s|e']; injection Hout as <- <-.
  - by specialize (Hnew Hq Hget).
  - by specialize (Hnew Hq Hget) as [= ->].
Qed.

Lemma collect_data_store get classification w :
  store (collect_data get classification w) = store w.
Proof.
  unfold collect_data. repeat case_decide; [done..|].
  by destruct (fetch_data _ _ _ _) as [[? [|]]|].
Qed.

(** C8.  When a page request of a fetch fails, [fetch_data] gives that one
    exception and no frames; the "Collect Data" handler then shows one error
    and leaves both the session (the frames of an earlier fetch included)
    and the store as they were.  No fetch, failed or not, changes the
    store. *)
Theorem fetch_all_or_nothing fuel get classification limit sent out q e :
  fetch_data fuel get classification limit = Some (sent, out) →
  q ∈ sent → get q = Raise e →
  out = Raise e
  ∧ (∀ w, fuel = Z.to_nat DEFAULT_FETCH_LIMIT → limit = DEFAULT_FETCH_LIMIT →
       state (collect_data get classification w) = state w
       ∧ (classification ≠ "" →
          lower classification ∉ inserted_classifications (state w) →
          events (collect_data get classification w)
            = events w ++ (http_get <$> sent) ++ [error_failed_to_collect e]))
  ∧ (∀ get' classification' w,
       store (collect_data get' classification' w) = store w).
Proof.
  intros Hfetch Hq Hget.
  pose proof (fetch_data_failed_request _ _ _ _ _ _ _ _ Hfetch Hq Hget) as ->.
  split; [done|]. split; [|apply collect_data_store].
  intros w -> ->. unfold collect_data. rewrite Hfetch.
  split; [by repeat case_decide|].
  intros Hne Hnew. by rewrite !decide_False by done.
Qed.

Lemma fetch_all_or_nothing_witness :
  Raise (RequestException 503) = Raise (A := frames) (RequestException 503)
  ∧ (∀ w, Z.to_nat DEFAULT_FETCH_LIMIT = Z.to_nat DEFAULT_FETCH_LIMIT →
       DEFAULT_FETCH_LIMIT = DEFAULT_FETCH_LIMIT →
       state (collect_data second_page_fails "Coins" w) = state w
       ∧ ("Coins" ≠ "" →
          lower "Coins" ∉ inserted_classifications (state w) →
          events (collect_data second_page_fails "Coins" w)
            = events w ++ (http_get <$> [request "Coins" 1; request "Coins" 2])
              ++ [error_failed_to_collect (RequestException 503)]))
  ∧ (∀ get' classification' w,
       store (collect_data get' classification' w) = store w).
Proof.
  apply (fetch_all_or_nothing (Z.to_nat DEFAULT_FETCH_LIMIT) second_page_fails
           "Coins" DEFAULT_FETCH_LIMIT [request "Coins" 1; request "Coins" 2]
           (Raise (RequestException 503)) (request "Coins" 2)
           (RequestException 503)).
  - vm_compute. reflexivity.
  - right. left.
  - reflexivity.
Defined.

(** ** Replacement on a key *)

Section replace_on_key.
Context {A K : Type} `{EqDecision K} (key : A → K).

Lemma filter_filter_key (ks : list K) (k : K) (t : list A) :
  filter (λ x, key x ∉ ks) (filter (λ x, key x ≠ k) t)
  = filter (λ x, key x ∉ k :: ks) t.
Proof.
  rewrite list_filter_filter. apply list_filter_iff.
  intros x. rewrite not_elem_of_cons. tauto.
Qed.

Lemma fold_put rs : ∀ t,
  fold_left (put key) rs t
  = filter (λ x, key x ∉ key <$> rs) t ++ keep_last key rs.
Proof.
  induction rs as [|r rs IH]; intros t; simpl.
  - rewrite app_nil_r. symmetry. apply filter_all.
    by intros x _ ?%elem_of_nil.
  - rewrite IH. unfold put. rewrite filter_app, filter_filter_key.
    rewrite <- app_assoc. f_equal.
    destruct (decide (key r ∈ key <$> rs)) as [Hin|Hin].
    + by rewrite filter_cons_False by tauto.
    + by rewrite filter_cons_True by done.
Qed.

Lemma keep_last_key rs x : x ∈ keep_last key rs → key x ∈ key <$> rs.
Proof.
  induction rs as [|r rs IH]; simpl; [by intros ?%elem_of_nil|].
  destruct (decide _).
  - intros ?%IH. by right.
  - intros [->|?%IH]%elem_of_cons; [by left|by right].
Qed.

(** A batch written twice leaves what it leaves when written once. *)
Lemma fold_put_twice rs t :
  fold_left (put key) rs (fold_left (put key) rs t) = fold_left (put key) rs t.
Proof.
  rewrite !fold_put, filter_app. rewrite <- app_assoc. f_equal.
  - rewrite list_filter_filter. apply list_filter_iff. tauto.
  - rewrite (filter_none _ (keep_last key rs)); [done|].
    intros x Hx%keep_last_key Hn. by apply Hn.
Qed.

Lemma filter_put_other (k : K) t r :
  key r ≠ k →
  filter (λ x, key x = k) (put key t r) = filter (λ x, key x = k) t.
Proof.
  intros Hr. unfold put. rewrite filter_app, list_filter_filter.
  rewrite filter_cons_False, filter_nil, app_nil_r by done.
  apply list_filter_iff. intros x. split; [tauto|].
  intros Hx. split; [done|congruence].
Qed.

Lemma filter_put_same t r :
  filter (λ x, key x = key r) (put key t r) = [r].
Proof.
  unfold put. rewrite filter_app, list_filter_filter.
  rewrite (filter_none _ t) by tauto.
  by rewrite filter_cons_True.
Qed.

(** The row a batch leaves for a key is the last row it has for that key. *)
Lemma fold_put_last l1 r l2 t :
  (∀ y, y ∈ l2 → key y ≠ key r) →
  filter (λ x, key x = key r) (fold_left (put key) (l1 ++ r :: l2) t) = [r].
Proof.
  intros Hl2. rewrite fold_left_app. simpl.
  generalize (fold_left (put key) l1 t). clear t. intros t.
  assert (filter (λ x, key x = key r) (put key t r) = [r]) as Ht
    by apply filter_put_same.
  revert Ht. generalize (put key t r). clear t.
  induction l2 as [|y l2 IH]; intros t Ht; simpl; [done|].
  apply IH.
  - intros z Hz. apply Hl2. by right.
  - rewrite filter_put_other; [done|]. apply Hl2. by left.
Qed.

Lemma put_NoDup t r : NoDup (key <$> t) → NoDup (key <$> put key t r).
Proof.
  intros Ht. unfold put. rewrite fmap_app. apply NoDup_app. repeat split.
  - eapply sublist_NoDup; [exact Ht|]. apply fmap_sublist, sublist_filter.
  - intros k (x & -> & [Hx _]%list_elem_of_filter)%list_elem_of_fmap.
    simpl. intros Hin%list_elem_of_singleton. by apply Hx.
  - apply NoDup_singleton.
Qed.

Lemma app_NoDup_fresh t r :
  key r ∉ key <$> t → NoDup (key <$> t) → NoDup (key <$> t ++ [r]).
Proof.
  intros Hr Ht. rewrite fmap_app. apply NoDup_app. repeat split; [done| |].
  - intros k Hk. simpl. intros Hin%list_elem_of_singleton.
    apply Hr. by rewrite <- Hin.
  - apply NoDup_singleton.
Qed.
End replace_on_key.

(** ** The store *)

Lemma isna_integer_affinity v : isna (integer_affinity v) = isna v.
Proof.
  destruct v as [|n|q|s]; simpl; [done..| |].
  - by destruct (whole q).
  - by destruct (int_literal s).
Qed.

Lemma null_key_stored r : null_key (colors_stored r) = null_key r.
Proof. unfold null_key. simpl. by rewrite isna_integer_affinity. Qed.

Lemma executemany_keeps {A} (stmt : list A → A → result (list A))
    (P : list A → Prop) rows : ∀ t t',
  (∀ t r t', r ∈ rows → P t → stmt t r = Ok t' → P t') →
  P t → executemany stmt t rows = Ok t' → P t'.
Proof.
  induction rows as [|r rows IH]; intros t t' Hstmt Ht; simpl.
  - by intros [= <-].
  - destruct (stmt t r) as [t1|e] eqn:Hr; [|done]. simpl.
    apply IH.
    + intros t2 r2 t2' Hr2. apply Hstmt. by right.
    + eapply Hstmt; [by left|exact Ht|exact Hr].
Qed.

Section rowid_table_facts.
Context {A : Type} (key : A → value) (with_key : value → A → A).
Context (key_with_key : ∀ v r, key (with_key v r) = v).

Lemma replace_rowid_put t r t' :
  replace_rowid key with_key t r = Ok t' →
  ∃ n, t' = put key t (with_key (VInt n) r).
Proof.
  unfold replace_rowid. destruct (rowid _ _) as [n|e]; [|done]. simpl.
  intros [= <-]. exists n. unfold put.
  f_equal. apply list_filter_iff. intros x. by rewrite key_with_key.
Qed.

Lemma replace_rowid_NoDup t r t' :
  NoDup (key <$> t) → replace_rowid key with_key t r = Ok t' →
  NoDup (key <$> t').
Proof. intros Ht (n & ->)%replace_rowid_put. by apply put_NoDup. Qed.

(** A row whose key is an integer is written as it is, whatever the table. *)
Lemma replace_rowid_int t r n :
  key r = VInt n → with_key (VInt n) r = r →
  replace_rowid key with_key t r = Ok (put key t r).
Proof.
  intros Hk Hr. unfold replace_rowid, rowid. rewrite Hk. simpl.
  unfold put. rewrite Hr. do 2 f_equal.
  apply list_filter_iff. intros x. by rewrite Hk.
Qed.
End rowid_table_facts.

Lemma replace_colors_NoDup t r t' :
  null_key r = false →
  NoDup (colors_key <$> t) → replace_colors t r = Ok t' →
  NoDup (colors_key <$> t').
Proof.
  intros Hr Ht. unfold replace_colors. rewrite null_key_stored, Hr.
  intros [= <-]. by apply (put_NoDup colors_key).
Qed.

Lemma upsert_metadata_eq df c :
  upsert_metadata df c =
  (recs ← build_records meta_vals df;
   t ← executemany replace_metadata (artifact_metadata (txn c)) recs;
   Ok {| file := file c;
         txn := {| artifact_metadata := t;
                   artifact_media := artifact_media (txn c);
                   artifact_colors := artifact_colors (txn c) |} |}).
Proof. destruct df; [|done]. by destruct c as [f [? ? ?]]. Qed.

Lemma upsert_media_eq df c :
  upsert_media df c =
  (t ← executemany replace_media (artifact_media (txn c)) df;
   Ok {| file := file c;
         txn := {| artifact_metadata := artifact_metadata (txn c);
                   artifact_media := t;
                   artifact_colors := artifact_colors (txn c) |} |}).
Proof. destruct df; [|done]. by destruct c as [f [? ? ?]]. Qed.

Lemma upsert_colors_eq df c :
  upsert_colors df c =
  (t ← executemany replace_colors (artifact_colors (txn c)) df;
   Ok {| file := file c;
         txn := {| artifact_metadata := artifact_metadata (txn c);
                   artifact_media := artifact_media (txn c);
                   artifact_colors := t |} |}).
Proof. destruct df; [|done]. by destruct c as [f [? ? ?]]. Qed.

(** [insert_frames] either raises and leaves the file as it was, or commits
    the three tables as the three [executemany] left them. *)
Lemma insert_frames_cases db meta media colors :
  (∃ e, insert_frames db meta media colors = (db, Raise e))
  ∨ (∃ recs tm td tc,
       build_records meta_vals meta = Ok recs
       ∧ executemany replace_metadata (artifact_metadata db) recs = Ok tm
       ∧ executemany replace_media (artifact_media db) media = Ok td
       ∧ executemany replace_colors (artifact_colors db) colors = Ok tc
       ∧ insert_frames db meta media colors =
           ({| artifact_metadata := tm; artifact_media := td;
               artifact_colors := tc |}, Ok ())).
Proof.
  unfold insert_frames.
  rewrite upsert_metadata_eq. simpl.
  destruct (build_records meta_vals meta) as [recs|e] eqn:Hrecs; simpl;
    [|by left; eexists].
  destruct (executemany replace_metadata _ recs) as [tm|e] eqn:Htm; simpl;
    [|by left; eexists].
  rewrite upsert_media_eq. simpl.
  destruct (executemany replace_media _ media) as [td|e] eqn:Htd; simpl;
    [|by left; eexists].
  rewrite upsert_colors_eq. simpl.
  destruct (executemany replace_colors _ colors) as [tc|e] eqn:Htc; simpl;
    [|by left; eexists].
  right. by exists recs, tm, td, tc.
Qed.

Lemma insert_frames_unique_keys db meta media colors :
  colors_keyed colors → unique_keys db →
  unique_keys (insert_frames db meta media colors).1.
Proof.
  intros Hkeyed (Hm & Hd & Hc).
  destruct (insert_frames_cases db meta media colors)
    as [[e ->]|(recs & tm & td & tc & _ & Htm & Htd & Htc & ->)]; [done|].
  simpl. repeat split; simpl.
  - eapply (executemany_keeps _ (λ t, NoDup (metadata.id <$> t)));
      [|exact Hm|exact Htm].
    intros t r t' _. by apply replace_rowid_NoDup.
  - eapply (executemany_keeps _ (λ t, NoDup (media.object_id <$> t)));
      [|exact Hd|exact Htd].
    intros t r t' _. by apply replace_rowid_NoDup.
  - eapply (executemany_keeps _ (λ t, NoDup (colors_key <$> t)));
      [|exact Hc|exact Htc].
    intros t r t' Hr. apply replace_colors_NoDup.
    by eapply Forall_forall in Hkeyed.
Qed.

(** *** Batches whose rows have their keys *)

Lemma executemany_stored {A K : Type} `{EqDecision K} (key : A → K)
    (stmt : list A → A → result (list A)) (stored : A → result A) rows :
  (∀ t r, r ∈ rows → stmt t r = (r' ← stored r; Ok (put key t r'))) →
  ∀ t, executemany stmt t rows
       = (rs ← build_records stored rows; Ok (fold_left (put key) rs t)).
Proof.
  induction rows as [|r rows IH]; intros Hstmt t; simpl; [done|].
  rewrite Hstmt by (by left).
  destruct (stored r) as [r'|e]; simpl; [|done].
  rewrite IH by (intros t2 r2 Hr2; apply Hstmt; by right).
  by destruct (build_records stored rows).
Qed.

Lemma build_records_Ok {A B : Type} (f : A → B) rows :
  build_records (λ r, Ok (f r)) rows = Ok (f <$> rows).
Proof. induction rows as [|r rows IH]; simpl; [done|]. by rewrite IH. Qed.

Lemma build_records_Forall {A B : Type} (vals : A → result B)
    (P : A → Prop) (Q : B → Prop) rows recs :
  (∀ r v, P r → vals r = Ok v → Q v) →
  Forall P rows → build_records vals rows = Ok recs → Forall Q recs.
Proof.
  intros HPQ Hrows. revert recs.
  induction Hrows as [|r rows Hr Hrows IH]; intros recs; simpl.
  - intros [= <-]. constructor.
  - destruct (vals r) as [v|e] eqn:Hv; simpl; [|done].
    destruct (build_records vals rows) as [vs|e]; simpl; [|done].
    intros [= <-]. constructor; [by eapply HPQ|by apply IH].
Qed.

Lemma meta_vals_int r v :
  metadata.id r ≠ VNone → meta_vals r = Ok v →
  ∃ n, metadata.id v = VInt n ∧ meta_with_id (VInt n) v = v.
Proof.
  unfold meta_vals. intros Hid.
  destruct (metadata.id r) as [|n|q|s]; simpl; [done|..].
  - intros [= <-]. by exists n.
  - intros [= <-]. by eexists.
  - destruct (int_literal s) as [n|]; simpl; [|done].
    intros [= <-]. by exists n.
Qed.

Lemma executemany_metadata t recs :
  Forall (λ v, ∃ n, metadata.id v = VInt n ∧ meta_with_id (VInt n) v = v) recs →
  executemany replace_metadata t recs
  = Ok (fold_left (put metadata.id) recs t).
Proof.
  intros Hrecs.
  rewrite (executemany_stored metadata.id _ (λ r, Ok r)).
  - by rewrite build_records_Ok, list_fmap_id.
  - intros t' r Hr. eapply Forall_forall in Hrecs as (n & Hn & Hw); [|exact Hr].
    by apply (replace_rowid_int metadata.id meta_with_id) with n.
Qed.

Lemma executemany_media t df :
  Forall (λ r, media.object_id r ≠ VNone) df →
  executemany replace_media t df
  = (rs ← build_records media_stored df;
     Ok (fold_left (put media.object_id) rs t)).
Proof.
  intros Hdf. apply executemany_stored.
  intros t' r Hr. eapply Forall_forall in Hdf; [|exact Hr].
  unfold replace_media, replace_rowid, rowid, media_stored.
  pose proof (isna_integer_affinity (media.object_id r)) as Hna.
  destruct (integer_affinity (media.object_id r)) as [|n|q|s]; simpl; try done.
  by destruct (media.object_id r).
Qed.

Lemma executemany_colors t df :
  colors_keyed df →
  executemany replace_colors t df
  = Ok (fold_left (put colors_key) (colors_stored <$> df) t).
Proof.
  intros Hdf.
  rewrite (executemany_stored colors_key _ (λ r, Ok (colors_stored r))).
  - by rewrite build_records_Ok.
  - intros t' r Hr. eapply Forall_forall in Hdf; [|exact Hr].
    unfold replace_colors. simpl in Hdf. by rewrite null_key_stored, Hdf.
Qed.

(** What [insert_frames] does with a batch whose rows have their keys. *)
Lemma insert_frames_keyed db (b : batch) :
  keyed b →
  insert_frames db b.1.1 b.1.2 b.2 =
  match (recs ← build_records meta_vals b.1.1;
         rs ← build_records media_stored b.1.2;
         Ok (recs, rs)) with
  | Ok (recs, rs) =>
      ({| artifact_metadata :=
            fold_left (put metadata.id) recs (artifact_metadata db);
          artifact_media :=
            fold_left (put media.object_id) rs (artifact_media db);
          artifact_colors :=
            fold_left (put colors_key) (colors_stored <$> b.2)
              (artifact_colors db) |}, Ok ())
  | Raise e => (db, Raise e)
  end.
Proof.
  destruct b as [[meta media] colors]. intros (Hm & Hd & Hc). simpl in *.
  unfold insert_frames.
  rewrite upsert_metadata_eq. simpl.
  destruct (build_records meta_vals meta) as [recs|e] eqn:Hrecs; simpl; [|done].
  rewrite executemany_metadata
    by (eapply build_records_Forall; [|exact Hm|exact Hrecs];
        intros r v; apply meta_vals_int).
  simpl. rewrite upsert_media_eq. simpl.
  rewrite executemany_media by done.
  destruct (build_records media_stored media) as [rs|e]; simpl; [|done].
  rewrite upsert_colors_eq. simpl.
  by rewrite executemany_colors.
Qed.

(** C1.  For a batch whose rows have their primary keys, a second
    [insert_frames] of the same batch gives the same outcome and leaves the
    three tables, row for row, as the first one left them. *)
Theorem insert_frames_idempotent (db : database) (b : batch) :
  keyed b →
  insert_frames (upsert db b) b.1.1 b.1.2 b.2 = insert_frames db b.1.1 b.1.2 b.2
  ∧ upsert (upsert db b) b = upsert db b.
Proof.
  intros Hb.
  assert (insert_frames (upsert db b) b.1.1 b.1.2 b.2
          = insert_frames db b.1.1 b.1.2 b.2) as Heq.
  { unfold upsert. rewrite !(insert_frames_keyed _ b Hb).
    destruct (build_records meta_vals b.1.1) as [recs|e]; simpl; [|done].
    destruct (build_records media_stored b.1.2) as [rs|e]; simpl; [|done].
    by rewrite !fold_put_twice. }
  split; [done|]. unfold upsert at 1 3. by rewrite Heq.
Qed.

Lemma insert_frames_idempotent_witness :
  insert_frames (upsert empty_db coin_batch)
    coin_batch.1.1 coin_batch.1.2 coin_batch.2
  = insert_frames empty_db coin_batch.1.1 coin_batch.1.2 coin_batch.2
  ∧ upsert (upsert empty_db coin_batch) coin_batch = upsert empty_db coin_batch.
Proof.
  apply (insert_frames_idempotent empty_db coin_batch).
  repeat split; repeat constructor; done.
Defined.




(** C3, as the specification has it, fails: a batch whose metadata are
    written and whose media row is then refused leaves no metadata row in
    the file. *)
Lemma insert_frames_discards_written_tables :
  ¬ (∀ db meta media colors c1 e,
       upsert_metadata meta (get_conn db) = Ok c1 →
       upsert_media media c1 = Raise e →
       artifact_metadata (insert_frames db meta media colors).1
       = artifact_metadata (txn c1)).
Proof.
  intros H.
  specialize (H empty_db bad_media_batch.1.1 bad_media_batch.1.2
                bad_media_batch.2 _ IntegrityError eq_refl eq_refl).
  vm_compute in H. discriminate H.
Qed.

(** C3, amended.  When a write of [insert_frames] raises, the call ends
    before its commit and the file is as it was before the call: nothing of
    the batch is kept, neither of the table that failed nor of a table
    written before it. *)
Theorem insert_frames_all_or_nothing db meta media colors e :
  (insert_frames db meta media colors).2 = Raise e →
  (insert_frames db meta media colors).1 = db.
Proof.
  destruct (insert_frames_cases db meta media colors)
    as [[e' ->]|(? & ? & ? & ? & _ & _ & _ & _ & ->)]; [done|].
  simpl. discriminate.
Qed.

Lemma insert_frames_all_or_nothing_witness :
  (insert_frames empty_db bad_media_batch.1.1 bad_media_batch.1.2
     bad_media_batch.2).1 = empty_db.
Proof.
  apply (insert_frames_all_or_nothing empty_db bad_media_batch.1.1
           bad_media_batch.1.2 bad_media_batch.2 IntegrityError).
  reflexivity.
Defined.

(** ** No colour row without a hue *)

Lemma filter_Forall {A} (P : A → Prop) `{∀ x, Decision (P x)} (l : list A) :
  Forall P (filter P l).
Proof. apply Forall_forall. by intros x [? _]%list_elem_of_filter. Qed.

Lemma replace_colors_hue t r t' :
  colors.hue r ≠ VNone →
  Forall (λ x, colors.hue x ≠ VNone) t → replace_colors t r = Ok t' →
  Forall (λ x, colors.hue x ≠ VNone) t'.
Proof.
  intros Hr Ht. unfold replace_colors.
  destruct (null_key _); intros [= <-]; apply Forall_app; split.
  - done.
  - by repeat constructor.
  - apply Forall_forall. intros x [_ Hx]%list_elem_of_filter.
    by eapply Forall_forall in Ht.
  - by repeat constructor.
Qed.

Lemma insert_frames_hue db meta media colors :
  Forall (λ x, colors.hue x ≠ VNone) colors →
  Forall (λ x, colors.hue x ≠ VNone) (artifact_colors db) →
  Forall (λ x, colors.hue x ≠ VNone)
    (artifact_colors (insert_frames db meta media colors).1).
Proof.
  intros Hcolors Hdb.
  destruct (insert_frames_cases db meta media colors)
    as [[e ->]|(recs & tm & td & tc & _ & _ & _ & Htc & ->)]; [done|].
  simpl.
  eapply (executemany_keeps _ (Forall (λ x, colors.hue x ≠ VNone)));
    [|exact Hdb|exact Htc].
  intros t r t' Hr. apply replace_colors_hue.
  by eapply Forall_forall in Hcolors.
Qed.

(** The frame of colours held by the session and the colours table of the
    store have no row without a hue, and every run of the script keeps it
    so. *)
Lemma step_hue w a :
  Forall (λ x, colors.hue x ≠ VNone) (colors_df (state w))
  ∧ Forall (λ x, colors.hue x ≠ VNone) (artifact_colors (store w)) →
  Forall (λ x, colors.hue x ≠ VNone) (colors_df (state (step w a)))
  ∧ Forall (λ x, colors.hue x ≠ VNone) (artifact_colors (store (step w a))).
Proof.
  intros [Hdf Hdb]. destruct a as [get c| | | |c]; simpl; try done.
  - unfold collect_data. repeat case_decide; [done..|].
    destruct (fetch_data _ _ _ _) as [[sent [[[[meta media] colors] raw]|e]]|]
      eqn:Hfetch; [|done..].
    simpl. split; [|done].
    apply fetch_data_ok in Hfetch as (_ & _ & ->). apply filter_Forall.
  - unfold insert. destruct (_ && _); [|done].
    case_decide; [done|].
    pose proof (insert_frames_hue (store w) (meta_df (state w))
                  (media_df (state w)) _ Hdf Hdb) as Hins.
    by destruct (insert_frames _ _ _ _) as [db [[]|e]].
Qed.

Lemma run_hue acts : ∀ w,
  Forall (λ x, colors.hue x ≠ VNone) (colors_df (state w))
  ∧ Forall (λ x, colors.hue x ≠ VNone) (artifact_colors (store w)) →
  Forall (λ x, colors.hue x ≠ VNone) (artifact_colors (store (run w acts))).
Proof.
  induction acts as [|a acts IH]; intros w Hw; simpl; [by destruct Hw|].
  by apply IH, step_hue.
Qed.

(** C4.  The colour rows [fetch_data] returns are the colour entries of the
    gathered records that have a hue, in order: an entry without a hue has
    no row.  And in every session, over a colours table that has no row
    without a hue, the runs of the script never put one there. *)
Theorem null_hue_excluded :
  (∀ fuel get classification limit sent meta media colors raw,
     fetch_data fuel get classification limit
       = Some (sent, Ok (meta, media, colors, raw)) →
     colors = filter (λ r, colors.hue r ≠ VNone) (raw ≫= colors_of)
     ∧ (∀ o c, o ∈ raw → c ∈ obj.colors o → obj.hue c = VNone →
               color_of o c ∉ colors)
     ∧ Forall (λ r, colors.hue r ≠ VNone) colors)
  ∧ (∀ file acts,
       Forall (λ r, colors.hue r ≠ VNone) (artifact_colors (init_db file)) →
       Forall (λ r, colors.hue r ≠ VNone)
         (artifact_colors (store (run (app_start file) acts)))).
Proof.
  split.
  - intros fuel get classification limit sent meta media colors raw
      (_ & _ & ->)%fetch_data_ok.
    split; [done|]. split; [|apply filter_Forall].
    intros o c _ _ Hc [Hhue _]%list_elem_of_filter. by apply Hhue.
  - intros file acts Hfile. apply run_hue. split; [constructor|done].
Qed.

Lemma null_hue_excluded_witness :
  [color_of (artifact (VInt 7) "first" [red (1 # 2); no_hue]) (red (1 # 2));
   color_of (artifact (VInt 7) "second" [red (1 # 3)]) (red (1 # 3))]
  = filter (λ r, colors.hue r ≠ VNone)
      ([artifact (VInt 7) "first" [red (1 # 2); no_hue];
        artifact (VInt 7) "second" [red (1 # 3)]] ≫= colors_of)
  ∧ Forall (λ r, colors.hue r ≠ VNone)
      (artifact_colors (store (run (app_start None)
         [CollectData twice_seven "Coins"; MigrateToSQL; Insert "Coins"]))).
Proof.
  split.
  - apply (proj1 null_hue_excluded 3%nat twice_seven "Coins" 10
             [request "Coins" 1]
             [meta_of "Coins" (artifact (VInt 7) "first" [red (1 # 2); no_hue])]
             [media_of (artifact (VInt 7) "first" [red (1 # 2); no_hue])]).
    reflexivity.
  - apply (proj2 null_hue_excluded None). constructor.
Defined.

(** ** The tracker of inserted classifications *)

Lemma lower_letter_pair a b : letter_pair a b → lower_ascii a = b ∧ lower_ascii b = b.
Proof.
  intros (i & Hi & -> & ->).
  do 26 (destruct i as [|i]; [by vm_compute|]). lia.
Qed.

Lemma lower_same_letter a b : same_letter a b → lower_ascii a = lower_ascii b.
Proof.
  intros [->|[[Ha Hb]%lower_letter_pair|[Hb Ha]%lower_letter_pair]];
    [done|congruence..].
Qed.

Lemma lower_caseless s t : caseless s t → lower s = lower t.
Proof.
  induction 1 as [|a b s t Hab _ IH]; simpl; [done|].
  by rewrite IH, (lower_same_letter a b).
Qed.

(** The tracker only grows. *)
Lemma step_tracker w a :
  inserted_classifications (state w)
  ⊆ inserted_classifications (state (step w a)).
Proof.
  destruct a as [get c| | | |c]; simpl; try done.
  - unfold collect_data. repeat case_decide; [done..|].
    by destruct (fetch_data _ _ _ _) as [[sent [[[[meta media] colors] raw]|e]]|].
  - unfold insert. destruct (_ && _); [|done].
    case_decide; [done|].
    destruct (insert_frames _ _ _ _) as [db [[]|e]]; simpl; [|done].
    set_solver.
Qed.

Lemma run_tracker acts : ∀ w,
  inserted_classifications (state w)
  ⊆ inserted_classifications (state (run w acts)).
Proof.
  induction acts as [|a acts IH]; intros w; simpl; [done|].
  etrans; [apply (step_tracker w a)|apply IH].
Qed.

(** An insert that went through has marked its classification. *)
Lemma insert_marks c w :
  events (insert c w) = events w ++ [call_insert_frames; success_inserted] →
  lower c ∈ inserted_classifications (state (insert c w)).
Proof.
  unfold insert. destruct (_ && _).
  2:{ intros Hev. rewrite <- (app_nil_r (events w)) in Hev at 1.
      by apply app_inv_head in Hev. }
  case_decide as Hin; [done|].
  destruct (insert_frames _ _ _ _) as [db [[]|e]]; simpl.
  - intros _. set_solver.
  - by intros [=]%app_inv_head.
Qed.

(** C7.  After an insert that went through for a classification, in every
    later run of the script in the session an insert for a classification
    that differs from it in the case of letters only is refused: the run
    shows the error, calls [insert_frames] not at all, and leaves session
    and store as they were.  "Collect Data" refuses it as well. *)
Theorem tracker_gating (w : app) (c c' : string) (acts : list action) :
  events (insert c w) = events w ++ [call_insert_frames; success_inserted] →
  caseless c c' →
  migrate_click (state (run (insert c w) acts))
    && is_collected (state (run (insert c w) acts)) = true →
  let w' := run (insert c w) acts in
  events (insert c' w') = events w' ++ [error_already_exists c']
  ∧ store (insert c' w') = store w'
  ∧ state (insert c' w') = state w'
  ∧ (c' ≠ "" → ∀ get,
       collect_data get c' w' = emit [error_already_inserted c'] w').
Proof.
  intros Hev Hcase Hpage w'.
  assert (lower c' ∈ inserted_classifications (state w')) as Hin.
  { rewrite <- (lower_caseless c c' Hcase).
    apply (run_tracker acts (insert c w)). by apply insert_marks. }
  assert (insert c' w' = emit [error_already_exists c'] w') as ->.
  { unfold insert. fold w' in Hpage. rewrite Hpage. by rewrite decide_True. }
  repeat split; [done..|].
  intros Hne get. unfold collect_data.
  by rewrite decide_False, decide_True.
Qed.

Lemma tracker_gating_witness :
  let w' := run (insert "Coins" collected_coins) [CollectedData; MigrateToSQL] in
  events (insert "COINS" w') = events w' ++ [error_already_exists "COINS"]
  ∧ store (insert "COINS" w') = store w'
  ∧ state (insert "COINS" w') = state w'
  ∧ ("COINS" ≠ "" → ∀ get,
       collect_data get "COINS" w' = emit [error_already_inserted "COINS"] w').
Proof.
  apply (tracker_gating collected_coins "Coins" "COINS"
           [CollectedData; MigrateToSQL]).
  - vm_compute. reflexivity.
  - apply caseless_letter; [by left|].
    apply caseless_letter; [right; right; exists 14%nat; split; [lia|split; reflexivity]|].
    apply caseless_letter; [right; right; exists 8%nat; split; [lia|split; reflexivity]|].
    apply caseless_letter; [right; right; exists 13%nat; split; [lia|split; reflexivity]|].
    apply caseless_letter; [right; right; exists 18%nat; split; [lia|split; reflexivity]|].
    apply caseless_empty.
  - vm_compute. reflexivity.
Defined.

(** ** The model on small inputs *)

Example int_literal_12 : int_literal "12" = Some 12.
Proof. reflexivity. Qed.

Example int_literal_minus_7 : int_literal "-7" = Some (-7).
Proof. reflexivity. Qed.

Example int_literal_abc : int_literal "abc" = None.
Proof. reflexivity. Qed.

Example whole_four_halves : whole (4 # 2) = Some 2.
Proof. reflexivity. Qed.

Example lower_Paintings : lower "Paintings & CO" = "paintings & co".
Proof. reflexivity. Qed.

(** A fetch that gathers no colour entry at all ends in the [KeyError] of
    [dropna]. *)
Example fetch_data_no_colors :
  fetch_data 3 (λ _, Ok {| records := []; info := None |}) "Coins" 10
  = Some ([request "Coins" 1], Raise (KeyError "hue")).
Proof. reflexivity. Qed.

(** The limit is tested before a page is requested: with a limit of 150 the
    third page is not asked for. *)
Example two_pages_requests :
  fst <$> fetch_data 5 two_pages "Coins" 150
  = Some [request "Coins" 1; request "Coins" 2].
Proof. vm_compute. reflexivity. Qed.

(** The media row that is refused: the metadata were written inside the
    transaction when the exception came. *)
Example bad_media_batch_trace :
  ∃ c1, upsert_metadata bad_media_batch.1.1 (get_conn empty_db) = Ok c1
        ∧ artifact_metadata (txn c1) = [meta_of "Coins" (coin 1)]
        ∧ artifact_metadata (file c1) = []
        ∧ upsert_media bad_media_batch.1.2 c1 = Raise IntegrityError.
Proof. eexists. repeat split; reflexivity. Qed.

(** Without its key a row is a new row at every insert: SQLite gives a
    metadata row with a NULL [id] the next free rowid. *)
Example null_id_twice :
  let b : batch := ([meta_of "Coins" (artifact VNone "Coin" [])], [], []) in
  metadata.id <$> artifact_metadata (upsert empty_db b) = [VInt 1]
  ∧ metadata.id <$> artifact_metadata (upsert (upsert empty_db b) b)
    = [VInt 1; VInt 2].
Proof. split; reflexivity. Qed.

(** The colours that [coin_batch] leaves: one row per key, the later of the
    two rows of the key [(1, Red)]. *)
Example coin_batch_colors :
  artifact_colors (upsert empty_db coin_batch)
  = [color_of (coin 2) (red (1 # 5)); color_of (coin 1) (red (1 # 3))].
Proof. reflexivity. Qed.

(** * Further properties of the code *)

(** ** The requests and the records of a fetch *)

Lemma fetch_data_overshoot_witness :
  Z.of_nat (length (coin <$> seqZ 1 100 ++ seqZ 101 100)) < 150 + 100.
Proof.
  apply (fetch_data_overshoot (Z.to_nat 150) two_pages "Coins" 150 100
           [request "Coins" 1; request "Coins" 2]
           (meta_of "Coins" <$> (coin <$> seqZ 1 100 ++ seqZ 101 100))
           (media_of <$> (coin <$> seqZ 1 100 ++ seqZ 101 100))
           ((coin <$> seqZ 1 100 ++ seqZ 101 100) ≫= colors_of)).
  - intros q p. unfold two_pages.
    destruct (page q =? 1); [|destruct (page q =? 2)]; by intros [= <-].
  - lia.
  - lia.
  - vm_compute. reflexivity.
Defined.

Section fetch_requests.
Context (get : remote) (classification : string) (limit : Z).

Lemma while_loop_pages fuel : ∀ sent s sent' out,
  while_loop fuel get classification limit sent s = Some (sent', out) →
  ∃ k : nat,
    sent' = sent ++ (request classification <$> seqZ (cur_page s) (Z.of_nat k)).
Proof.
  assert (∀ p, seqZ p 1 = [p]) as Hone by (intros p; by rewrite seqZ_cons, seqZ_nil).
  induction fuel as [|fuel IH]; intros sent s sent' out; simpl.
  - destruct (collected s <? limit); [done|].
    intros [= <- <-]. exists 0%nat. by rewrite app_nil_r.
  - destruct (collected s <? limit).
    2:{ intros [= <- <-]. exists 0%nat. by rewrite app_nil_r. }
    destruct (get _) as [p|e].
    2:{ intros [= <- <-]. exists 1%nat. by rewrite Hone. }
    destruct (records p) as [|o recs].
    { intros [= <- <-]. exists 1%nat. by rewrite Hone. }
    destruct (past_last_page _ _).
    { intros [= <- <-]. exists 1%nat. by rewrite Hone. }
    intros (k & ->)%IH. exists (S k).
    rewrite (seqZ_cons _ (Z.of_nat (S k))) by lia.
    replace (Z.pred (Z.of_nat (S k))) with (Z.of_nat k) by lia.
    rewrite absorb_eq. simpl. by rewrite <- app_assoc.
Qed.

Lemma while_loop_count fuel : ∀ sent s sent' out,
  while_loop fuel get classification limit sent s = Some (sent', out) →
  Z.of_nat (length sent')
  ≤ Z.of_nat (length sent) + Z.max 0 (limit - collected s).
Proof.
  induction fuel as [|fuel IH]; intros sent s sent' out; simpl.
  - destruct (collected s <? limit); [done|]. intros [= <- <-]. lia.
  - destruct (collected s <? limit) eqn:Hlt; [|intros [= <- <-]; lia].
    apply Z.ltb_lt in Hlt.
    assert (Z.of_nat (length (sent ++ [request classification (cur_page s)]))
            = Z.of_nat (length sent) + 1) as Hlen
      by (rewrite length_app; simpl; lia).
    destruct (get _) as [p|e]; [|intros [= <- <-]; lia].
    destruct (records p) as [|o recs]; [intros [= <- <-]; lia|].
    destruct (past_last_page _ _); [intros [= <- <-]; lia|].
    intros Hloop%IH.
    pose proof (absorb_collected classification o recs s). lia.
Qed.

Lemma while_loop_last_page (pages : Z) fuel : ∀ sent s sent' out,
  (∀ q p, get q = Ok p → info p = Some (Some pages)) →
  cur_page s ≤ Z.max 1 pages →
  while_loop fuel get classification limit sent s = Some (sent', out) →
  Z.of_nat (length sent')
  ≤ Z.of_nat (length sent) + (Z.max 1 pages - cur_page s + 1).
Proof.
  intros sent s sent' out Hinfo. revert sent s sent' out.
  induction fuel as [|fuel IH]; intros sent s sent' out Hpage;
    cbn [while_loop].
  - destruct (collected s <? limit); [done|]. intros [= <- <-]. lia.
  - destruct (collected s <? limit); [|intros [= <- <-]; lia].
    assert (Z.of_nat (length (sent ++ [request classification (cur_page s)]))
            = Z.of_nat (length sent) + 1) as Hlen
      by (rewrite length_app; simpl; lia).
    destruct (get _) as [p|e] eqn:Hget; [|intros [= <- <-]; lia].
    destruct (records p) as [|o recs]; [intros [= <- <-]; lia|].
    assert (cur_page (absorb classification (o :: recs) s) = cur_page s + 1)
      as Hnext by (by rewrite absorb_eq).
    unfold past_last_page. rewrite (Hinfo _ _ Hget), Hnext.
    destruct (pages <? cur_page s + 1) eqn:Hlast; [intros [= <- <-]; lia|].
    apply Z.ltb_ge in Hlast.
    intros Hloop%IH; lia.
Qed.

Lemma while_loop_raw fuel : ∀ sent s sent' s',
  while_loop fuel get classification limit sent s = Some (sent', Ok s') →
  ∃ new, sent' = sent ++ new
         ∧ raw_records s' = raw_records s ++ (new ≫= page_records get).
Proof.
  induction fuel as [|fuel IH]; intros sent s sent' s'; cbn [while_loop].
  - destruct (collected s <? limit); [done|].
    intros [= <- <-]. exists []. by rewrite !app_nil_r.
  - destruct (collected s <? limit).
    2:{ intros [= <- <-]. exists []. by rewrite !app_nil_r. }
    set (q0 := request classification (cur_page s)).
    destruct (get q0) as [p|e] eqn:Hget; [|done].
    assert (page_records get q0 = records p) as Hq0
      by (unfold page_records; by rewrite Hget).
    destruct (records p) as [|o recs] eqn:Hrecs.
    { intros [= <- <-]. exists [q0]. simpl. by rewrite Hq0, !app_nil_r. }
    destruct (past_last_page _ _).
    { intros [= <- <-]. exists [q0]. rewrite absorb_eq. simpl.
      by rewrite Hq0, app_nil_r. }
    intros (new & -> & ->)%IH. exists (q0 :: new). rewrite absorb_eq. simpl.
    by rewrite Hq0, <- !app_assoc.
Qed.

Lemma while_loop_raise fuel : ∀ sent s sent' e,
  while_loop fuel get classification limit sent s = Some (sent', Raise e) →
  ∃ q, q ∈ sent' ∧ get q = Raise e.
Proof.
  induction fuel as [|fuel IH]; intros sent s sent' e; simpl.
  - by destruct (collected s <? limit).
  - destruct (collected s <? limit); [|done].
    destruct (get _) as [p|e0] eqn:Hget.
    2:{ intros [= <- <-]. eexists. split; [|exact Hget].
        apply elem_of_app. right. by left. }
    destruct (records p) as [|o recs]; [done|].
    destruct (past_last_page _ _); [done|]. apply IH.
Qed.
End fetch_requests.

(** X2.  The requests of a fetch are those for the pages 1, 2, 3, ... in
    order, each with the API key, the classification asked for and the page
    size 100, whether the fetch returns or raises. *)
Theorem fetch_data_requests fuel get classification limit sent out :
  fetch_data fuel get classification limit = Some (sent, out) →
  sent = request classification <$> seqZ 1 (Z.of_nat (length sent)).
Proof.
  unfold fetch_data.
  destruct (while_loop _ _ _ _ _ _) as [[sent' r]|] eqn:Hloop; [|done].
  apply while_loop_pages in Hloop as (k & ->). simpl.
  intros Hout. assert (sent = request classification <$> seqZ 1 (Z.of_nat k))
    as -> by (by destruct r; injection Hout as <- _).
  by rewrite length_fmap, length_seqZ, !Nat2Z.id.
Qed.

Lemma fetch_data_requests_witness :
  [request "Coins" 1; request "Coins" 2]
  = request "Coins" <$> seqZ 1 (Z.of_nat (length [request "Coins" 1; request "Coins" 2])).
Proof.
  apply (fetch_data_requests (Z.to_nat 2500) second_page_fails "Coins" 2500
           _ (Raise (RequestException 503))).
  vm_compute. reflexivity.
Defined.

(** X3.  A fetch sends at most [limit] requests, and none for a limit that
    is not positive. *)
Theorem fetch_data_request_count fuel get classification limit sent out :
  fetch_data fuel get classification limit = Some (sent, out) →
  Z.of_nat (length sent) ≤ Z.max 0 limit.
Proof.
  unfold fetch_data.
  destruct (while_loop _ _ _ _ _ _) as [[sent' r]|] eqn:Hloop; [|done].
  apply while_loop_count in Hloop. simpl in Hloop.
  intros Hout. assert (sent = sent') as ->
    by (by destruct r; injection Hout as <- _).
  lia.
Qed.

Lemma fetch_data_request_count_witness :
  Z.of_nat (length [request "Coins" 1; request "Coins" 2]) ≤ Z.max 0 150.
Proof.
  apply (fetch_data_request_count 5 second_page_fails "Coins" 150 _
           (Raise (RequestException 503))).
  vm_compute. reflexivity.
Defined.

(** X4.  When every answer of the API reports the same number of pages, a
    fetch asks for no page beyond it (and for the first page in any case). *)
Theorem fetch_data_stops_at_last_page fuel get classification limit
    (pages : Z) sent out :
  (∀ q p, get q = Ok p → info p = Some (Some pages)) →
  fetch_data fuel get classification limit = Some (sent, out) →
  Z.of_nat (length sent) ≤ Z.max 1 pages.
Proof.
  intros Hinfo. unfold fetch_data.
  destruct (while_loop _ _ _ _ _ _) as [[sent' r]|] eqn:Hloop; [|done].
  apply (while_loop_last_page _ _ _ pages) in Hloop; [|done|simpl; lia].
  simpl in Hloop.
  intros Hout. assert (sent = sent') as ->
    by (by destruct r; injection Hout as <- _).
  lia.
Qed.

Lemma fetch_data_stops_at_last_page_witness :
  Z.of_nat (length [request "Coins" 1; request "Coins" 2]) ≤ Z.max 1 2.
Proof.
  apply (fetch_data_stops_at_last_page (Z.to_nat 2500) two_pages "Coins"
           2500 2 _
           (Ok (meta_of "Coins" <$> (coin <$> seqZ 1 100 ++ seqZ 101 100),
                media_of <$> (coin <$> seqZ 1 100 ++ seqZ 101 100),
                (coin <$> seqZ 1 100 ++ seqZ 101 100) ≫= colors_of,
                coin <$> seqZ 1 100 ++ seqZ 101 100))).
  - intros q p. unfold two_pages.
    destruct (page q =? 1); [|destruct (page q =? 2)]; by intros [= <-].
  - vm_compute. reflexivity.
Defined.

(** X5.  The raw records a fetch returns are the records of the pages it
    asked for, page after page, none left out and none out of order. *)
Theorem fetch_data_raw_records fuel get classification limit
    sent meta media colors raw :
  fetch_data fuel get classification limit
    = Some (sent, Ok (meta, media, colors, raw)) →
  raw = sent ≫= page_records get.
Proof.
  unfold fetch_data.
  destruct (while_loop _ _ _ _ _ _) as [[sent' [s|e]]|] eqn:Hloop; [|done..].
  apply while_loop_raw in Hloop as (new & -> & Hraw). simpl in *.
  unfold finish. destruct (dropna_hue _); simpl; [|done].
  by intros [= <- _ _ _ <-].
Qed.

Lemma fetch_data_raw_records_witness :
  [artifact (VInt 7) "first" [red (1 # 2); no_hue];
   artifact (VInt 7) "second" [red (1 # 3)]]
  = [request "Coins" 1] ≫= page_records twice_seven.
Proof.
  apply (fetch_data_raw_records 3 twice_seven "Coins" 10 _
           [meta_of "Coins" (artifact (VInt 7) "first" [red (1 # 2); no_hue])]
           [media_of (artifact (VInt 7) "first" [red (1 # 2); no_hue])]
           [color_of (artifact (VInt 7) "first" [red (1 # 2); no_hue]) (red (1 # 2));
            color_of (artifact (VInt 7) "second" [red (1 # 3)]) (red (1 # 3))]).
  reflexivity.
Defined.

Lemma colors_of_none (raw : list obj.t) :
  Forall (λ o, obj.colors o = []) raw → raw ≫= colors_of = [].
Proof.
  induction 1 as [|o raw Ho _ IH]; [done|].
  rewrite bind_cons, IH. unfold colors_of. by rewrite Ho.
Qed.

(** X6.  A fetch that gathers no colour entry does not return: when no
    record of the API has a colour (or the API has no record at all), the
    fetch ends in the [KeyError] of [dropna], unless a request failed
    before. *)
Theorem fetch_data_needs_colors fuel get classification limit sent out :
  (∀ q p o, get q = Ok p → o ∈ records p → obj.colors o = []) →
  fetch_data fuel get classification limit = Some (sent, out) →
  out = Raise (KeyError "hue")
  ∨ ∃ q e, q ∈ sent ∧ get q = Raise e ∧ out = Raise e.
Proof.
  intros Hnone. unfold fetch_data.
  destruct (while_loop _ _ _ _ _ _) as [[sent' [s|e]]|] eqn:Hloop; [| |done].
  - intros [= <- <-]. left.
    assert (loop_inv classification s
            ∧ Forall (λ o, obj.colors o = []) (raw_records s))
      as [(_ & _ & Hc & _) Hraw].
    { eapply (while_loop_exit get classification limit
        (λ s, loop_inv classification s
              ∧ Forall (λ o, obj.colors o = []) (raw_records s)));
        [| |exact Hloop].
      - intros s0 p [Hinv Hs0] _ Hget. split; [by apply loop_inv_absorb|].
        rewrite absorb_eq. simpl. apply Forall_app. split; [done|].
        apply Forall_forall. intros o Ho. exact (Hnone _ p o Hget Ho).
      - split; [apply loop_inv_init|constructor]. }
    unfold finish. rewrite Hc.
    by rewrite (colors_of_none _ Hraw).
  - intros [= <- <-]. right.
    apply while_loop_raise in Hloop as (q & Hq & Hget). by exists q, e.
Qed.

Lemma fetch_data_needs_colors_witness :
  Raise (A := frames) (KeyError "hue") = Raise (KeyError "hue")
  ∨ ∃ q e, q ∈ [request "Vases" 1] ∧ no_color_page q = Raise e
           ∧ Raise (A := frames) (KeyError "hue") = Raise e.
Proof.
  apply (fetch_data_needs_colors (Z.to_nat 2500) no_color_page "Vases" 2500).
  - intros q p o. unfold no_color_page. destruct (page q =? 1); intros [= <-].
    + by intros ->%list_elem_of_singleton.
    + by intros ?%elem_of_nil.
  - vm_compute. reflexivity.
Defined.

Lemma keep_first_fmap {A B K : Type} `{EqDecision K} (key : B → K) (f : A → B)
    (l : list A) : ∀ seen,
  keep_first key seen (f <$> l) = f <$> keep_first (key ∘ f) seen l.
Proof.
  induction l as [|x l IH]; intros seen; simpl; [done|].
  destruct (decide (key (f x) ∈ seen)); simpl; by rewrite IH.
Qed.

(** X7.  The metadata frame and the media frame a fetch returns are the
    rows of the same records, the first record of every id, in the same
    order: the two frames have the same ids row by row, and every metadata
    row carries the classification that was asked for. *)
Theorem fetch_data_frames_aligned fuel get classification limit
    sent meta media colors raw :
  fetch_data fuel get classification limit
    = Some (sent, Ok (meta, media, colors, raw)) →
  meta = meta_of classification <$> drop_duplicates obj_key raw
  ∧ media = media_of <$> drop_duplicates obj_key raw
  ∧ metadata.id <$> meta = media.object_id <$> media
  ∧ Forall (λ r, metadata.classification r = VText classification) meta.
Proof.
  intros (-> & -> & _)%fetch_data_ok.
  unfold drop_duplicates.
  rewrite (keep_first_fmap meta_key), (keep_first_fmap media_key).
  change (meta_key ∘ meta_of classification) with obj_key.
  change (media_key ∘ media_of) with obj_key.
  repeat split.
  - by rewrite <- !list_fmap_compose.
  - apply Forall_forall. by intros r (o & -> & _)%list_elem_of_fmap.
Qed.

Lemma fetch_data_frames_aligned_witness :
  [meta_of "Coins" (artifact (VInt 7) "first" [red (1 # 2); no_hue])]
  = meta_of "Coins" <$>
      drop_duplicates obj_key
        [artifact (VInt 7) "first" [red (1 # 2); no_hue];
         artifact (VInt 7) "second" [red (1 # 3)]]
  ∧ [media_of (artifact (VInt 7) "first" [red (1 # 2); no_hue])]
    = media_of <$>
        drop_duplicates obj_key
          [artifact (VInt 7) "first" [red (1 # 2); no_hue];
           artifact (VInt 7) "second" [red (1 # 3)]]
  ∧ metadata.id <$>
      [meta_of "Coins" (artifact (VInt 7) "first" [red (1 # 2); no_hue])]
    = media.object_id <$>
        [media_of (artifact (VInt 7) "first" [red (1 # 2); no_hue])]
  ∧ Forall (λ r, metadata.classification r = VText "Coins")
      [meta_of "Coins" (artifact (VInt 7) "first" [red (1 # 2); no_hue])].
Proof.
  apply (fetch_data_frames_aligned 3 twice_seven "Coins" 10
           [request "Coins" 1] _ _
           [color_of (artifact (VInt 7) "first" [red (1 # 2); no_hue]) (red (1 # 2));
            color_of (artifact (VInt 7) "second" [red (1 # 3)]) (red (1 # 3))]).
  reflexivity.
Defined.

(** ** What an upsert does to the tables *)

Lemma build_records_id {A : Type} (vals : A → result A) rows :
  (∀ r, r ∈ rows → vals r = Ok r) → build_records vals rows = Ok rows.
Proof.
  induction rows as [|r rows IH]; intros Hrows; simpl; [done|].
  rewrite Hrows by (by left). simpl.
  rewrite IH by (intros r' Hr'; apply Hrows; by right). done.
Qed.

Lemma forallb_elem_of {A} (f : A → bool) (l : list A) (x : A) :
  forallb f l = true → x ∈ l → f x = true.
Proof.
  intros Hl Hx. apply list_elem_of_In in Hx.
  by apply (proj1 (forallb_forall f l) Hl).
Qed.

Lemma is_integer_int v : is_integer v = true → ∃ n, v = VInt n.
Proof. destruct v; simpl; try done. by eexists. Qed.

Lemma meta_typed_id r : meta_typed r = true → ∃ n, metadata.id r = VInt n.
Proof.
  unfold meta_typed. intros H. apply is_integer_int.
  by destruct (is_integer (metadata.id r)).
Qed.

Lemma media_typed_id r :
  media_typed r = true → ∃ n, media.object_id r = VInt n.
Proof.
  unfold media_typed. intros H. apply is_integer_int.
  by destruct (is_integer (media.object_id r)).
Qed.

Lemma colors_typed_key r :
  colors_typed r = true →
  (∃ n, colors.object_id r = VInt n) ∧ colors.hue r ≠ VNone.
Proof.
  unfold colors_typed. intros H. split.
  - apply is_integer_int. by destruct (is_integer (colors.object_id r)).
  - destruct (is_integer (colors.object_id r)); [|done].
    by destruct (colors.hue r).
Qed.

Lemma typed_ids b :
  typed b →
  Forall (λ r, ∃ n, metadata.id r = VInt n) b.1.1
  ∧ Forall (λ r, ∃ n, media.object_id r = VInt n) b.1.2
  ∧ Forall (λ r, (∃ n, colors.object_id r = VInt n) ∧ colors.hue r ≠ VNone) b.2.
Proof.
  intros (Hm & Hd & Hc & _). repeat split; apply Forall_forall; intros r Hr.
  - apply meta_typed_id. by eapply forallb_elem_of.
  - apply media_typed_id. by eapply forallb_elem_of.
  - apply (colors_typed_key r). by eapply forallb_elem_of.
Qed.

Lemma typed_keyed b : typed b → keyed b.
Proof.
  intros (Hm & Hd & Hc)%typed_ids. repeat split.
  - eapply Forall_impl; [exact Hm|]. intros r [n Hn]. by rewrite Hn.
  - eapply Forall_impl; [exact Hd|]. intros r [n Hn]. by rewrite Hn.
  - eapply Forall_impl; [exact Hc|]. intros r [[n Hn] Hh].
    unfold null_key. rewrite Hn. simpl. by destruct (colors.hue r).
Qed.

Lemma typed_meta_vals meta :
  Forall (λ r, ∃ n, metadata.id r = VInt n) meta →
  build_records meta_vals meta = Ok meta.
Proof.
  intros Hm. apply build_records_id. intros r Hr.
  eapply Forall_forall in Hm as [n Hn]; [|exact Hr].
  unfold meta_vals. rewrite Hn. simpl. f_equal.
  destruct r; simpl in *; by subst.
Qed.

Lemma typed_media_stored media :
  Forall (λ r, ∃ n, media.object_id r = VInt n) media →
  build_records media_stored media = Ok media.
Proof.
  intros Hd. apply build_records_id. intros r Hr.
  eapply Forall_forall in Hd as [n Hn]; [|exact Hr].
  unfold media_stored. rewrite Hn. simpl. f_equal.
  destruct r; simpl in *; by subst.
Qed.

Lemma typed_colors_stored colors :
  Forall (λ r, (∃ n, colors.object_id r = VInt n) ∧ colors.hue r ≠ VNone) colors →
  colors_stored <$> colors = colors.
Proof.
  intros Hc. rewrite <- (list_fmap_id colors) at 2.
  apply list_fmap_ext. intros i r Hr.
  apply list_elem_of_lookup_2 in Hr.
  eapply Forall_forall in Hc as [[n Hn] _]; [|exact Hr].
  unfold colors_stored. rewrite Hn. simpl.
  destruct r; simpl in *; by subst.
Qed.

(** What [insert_frames] does with a typed batch. *)
Lemma insert_frames_typed_eq (db : database) (b : batch) :
  typed b →
  insert_frames db b.1.1 b.1.2 b.2 =
  ({| artifact_metadata :=
        fold_left (put metadata.id) b.1.1 (artifact_metadata db);
      artifact_media :=
        fold_left (put media.object_id) b.1.2 (artifact_media db);
      artifact_colors :=
        fold_left (put colors_key) b.2 (artifact_colors db) |}, Ok ()).
Proof.
  intros Hb. rewrite (insert_frames_keyed db b (typed_keyed b Hb)).
  destruct (typed_ids b Hb) as (Hm & Hd & Hc).
  rewrite typed_meta_vals, typed_media_stored by done. simpl.
  by rewrite typed_colors_stored.
Qed.

(** X8.  A batch typed as the schema (integer ids, a text for every hue,
    every cell of the type of its column) whose media frame is not of
    integers only is never refused, and it is written row by row: each row
    takes the place of the row that has its key, or is added. *)
Theorem insert_frames_typed (db : database) (b : batch) :
  typed b →
  insert_frames db b.1.1 b.1.2 b.2 =
  ({| artifact_metadata :=
        fold_left (put metadata.id) b.1.1 (artifact_metadata db);
      artifact_media :=
        fold_left (put media.object_id) b.1.2 (artifact_media db);
      artifact_colors :=
        fold_left (put colors_key) b.2 (artifact_colors db) |}, Ok ()).
Proof. apply insert_frames_typed_eq. Qed.

Lemma coin_batch_typed : typed coin_batch.
Proof. unfold typed. repeat split. Defined.

Lemma coin_as_medal_typed : typed coin_as_medal.
Proof. unfold typed. repeat split. Defined.

(** The frames [fetch_data] makes of the record without id: they are
    [idless_batch], and [insert_frames] commits them. *)
Example idless_fetch_and_insert :
  fetch_data 3 idless_page "Coins" 10
  = Some ([request "Coins" 1],
          Ok (idless_batch.1.1, idless_batch.1.2, idless_batch.2,
              [artifact VNone "Coin" [red (1 # 2); red (1 # 3)]]))
  ∧ (insert_frames empty_db idless_batch.1.1 idless_batch.1.2
       idless_batch.2).2 = Ok ()
  ∧ artifact_colors (upsert empty_db idless_batch) = idless_batch.2.
Proof. repeat split. Qed.




Lemma insert_frames_typed_witness :
  insert_frames empty_db coin_batch.1.1 coin_batch.1.2 coin_batch.2 =
  ({| artifact_metadata := fold_left (put metadata.id) coin_batch.1.1 [];
      artifact_media := fold_left (put media.object_id) coin_batch.1.2 [];
      artifact_colors := fold_left (put colors_key) coin_batch.2 [] |}, Ok ()).
Proof.
  apply (insert_frames_typed empty_db coin_batch). exact coin_batch_typed.
Defined.

Section keys_after_put.
Context {A K : Type} `{EqDecision K} (key : A → K).

Lemma elem_of_put_keys (k : K) t r :
  k ∈ key <$> put key t r ↔ k ∈ key <$> t ∨ k = key r.
Proof.
  unfold put. rewrite fmap_app, elem_of_app. simpl.
  rewrite list_elem_of_singleton, !list_elem_of_fmap. split.
  - intros [(x & -> & [_ Hx]%list_elem_of_filter)| ->]; [left|by right].
    by exists x.
  - intros [(x & -> & Hx)| ->]; [|by right].
    destruct (decide (key x = key r)) as [Heq|Hne]; [by right|left].
    exists x. split; [done|]. by apply list_elem_of_filter.
Qed.

Lemma elem_of_fold_put_keys (k : K) rs : ∀ t,
  k ∈ key <$> fold_left (put key) rs t ↔ k ∈ key <$> t ∨ k ∈ key <$> rs.
Proof.
  induction rs as [|r rs IH]; intros t; simpl.
  - rewrite elem_of_nil. tauto.
  - rewrite IH, elem_of_put_keys, elem_of_cons. tauto.
Qed.

Lemma fold_put_other_rows rs t :
  filter (λ x, key x ∉ key <$> rs) (fold_left (put key) rs t)
  = filter (λ x, key x ∉ key <$> rs) t.
Proof.
  rewrite fold_put, filter_app.
  rewrite (filter_none _ (keep_last key rs)).
  - rewrite app_nil_r, list_filter_filter. apply list_filter_iff. tauto.
  - intros x Hx%keep_last_key Hn. by apply Hn.
Qed.
End keys_after_put.

(** X9.  After the upsert of a typed batch, a table has the keys it had and
    the keys of the batch, and no other: no artifact is lost and none
    appears that was not written. *)
Theorem upsert_keys (db : database) (b : batch) :
  typed b →
  (∀ k, k ∈ metadata.id <$> artifact_metadata (upsert db b)
        ↔ k ∈ metadata.id <$> artifact_metadata db ∨ k ∈ metadata.id <$> b.1.1)
  ∧ (∀ k, k ∈ media.object_id <$> artifact_media (upsert db b)
          ↔ k ∈ media.object_id <$> artifact_media db
            ∨ k ∈ media.object_id <$> b.1.2)
  ∧ (∀ k, k ∈ colors_key <$> artifact_colors (upsert db b)
          ↔ k ∈ colors_key <$> artifact_colors db ∨ k ∈ colors_key <$> b.2).
Proof.
  intros Hb. unfold upsert. rewrite (insert_frames_typed_eq db b Hb). simpl.
  repeat split; apply elem_of_fold_put_keys.
Qed.

Lemma upsert_keys_witness :
  (∀ k, k ∈ metadata.id <$> artifact_metadata (upsert empty_db coin_batch)
        ↔ k ∈ metadata.id <$> artifact_metadata empty_db
          ∨ k ∈ metadata.id <$> coin_batch.1.1)
  ∧ (∀ k, k ∈ media.object_id <$> artifact_media (upsert empty_db coin_batch)
          ↔ k ∈ media.object_id <$> artifact_media empty_db
            ∨ k ∈ media.object_id <$> coin_batch.1.2)
  ∧ (∀ k, k ∈ colors_key <$> artifact_colors (upsert empty_db coin_batch)
          ↔ k ∈ colors_key <$> artifact_colors empty_db
            ∨ k ∈ colors_key <$> coin_batch.2).
Proof. apply (upsert_keys empty_db coin_batch). exact coin_batch_typed. Defined.

(** X10.  The upsert of a typed batch leaves the rows of every other key as
    they were: the same rows, in the same order. *)
Theorem upsert_other_rows (db : database) (b : batch) :
  typed b →
  filter (λ x, metadata.id x ∉ metadata.id <$> b.1.1)
    (artifact_metadata (upsert db b))
  = filter (λ x, metadata.id x ∉ metadata.id <$> b.1.1) (artifact_metadata db)
  ∧ filter (λ x, media.object_id x ∉ media.object_id <$> b.1.2)
      (artifact_media (upsert db b))
    = filter (λ x, media.object_id x ∉ media.object_id <$> b.1.2)
        (artifact_media db)
  ∧ filter (λ x, colors_key x ∉ colors_key <$> b.2)
      (artifact_colors (upsert db b))
    = filter (λ x, colors_key x ∉ colors_key <$> b.2) (artifact_colors db).
Proof.
  intros Hb. unfold upsert. rewrite (insert_frames_typed_eq db b Hb). simpl.
  repeat split; apply fold_put_other_rows.
Qed.

Lemma upsert_other_rows_witness :
  filter (λ x, metadata.id x ∉ metadata.id <$> coin_as_medal.1.1)
    (artifact_metadata (upsert (upsert empty_db coin_batch) coin_as_medal))
  = filter (λ x, metadata.id x ∉ metadata.id <$> coin_as_medal.1.1)
      (artifact_metadata (upsert empty_db coin_batch))
  ∧ filter (λ x, media.object_id x ∉ media.object_id <$> coin_as_medal.1.2)
      (artifact_media (upsert (upsert empty_db coin_batch) coin_as_medal))
    = filter (λ x, media.object_id x ∉ media.object_id <$> coin_as_medal.1.2)
        (artifact_media (upsert empty_db coin_batch))
  ∧ filter (λ x, colors_key x ∉ colors_key <$> coin_as_medal.2)
      (artifact_colors (upsert (upsert empty_db coin_batch) coin_as_medal))
    = filter (λ x, colors_key x ∉ colors_key <$> coin_as_medal.2)
        (artifact_colors (upsert empty_db coin_batch)).
Proof.
  apply (upsert_other_rows (upsert empty_db coin_batch) coin_as_medal).
  exact coin_as_medal_typed.
Defined.

(** X11.  In the metadata and media tables the last row a typed batch has
    for an id is the row the store holds for it afterwards, whole: an
    artifact that comes back, under another classification say, has its
    earlier row replaced and not merged. *)
Theorem upsert_replaces_whole_row (db : database) (b : batch) :
  typed b →
  (∀ l1 r l2, b.1.1 = l1 ++ r :: l2 →
     (∀ y, y ∈ l2 → metadata.id y ≠ metadata.id r) →
     filter (λ x, metadata.id x = metadata.id r)
       (artifact_metadata (upsert db b)) = [r])
  ∧ (∀ l1 r l2, b.1.2 = l1 ++ r :: l2 →
       (∀ y, y ∈ l2 → media.object_id y ≠ media.object_id r) →
       filter (λ x, media.object_id x = media.object_id r)
         (artifact_media (upsert db b)) = [r]).
Proof.
  intros Hb. unfold upsert. rewrite (insert_frames_typed_eq db b Hb). simpl.
  split; intros l1 r l2 -> Hl2.
  - by apply (fold_put_last metadata.id).
  - by apply (fold_put_last media.object_id).
Qed.

Lemma upsert_replaces_whole_row_witness :
  filter (λ x, metadata.id x = metadata.id (meta_of "Medals" (coin 1)))
    (artifact_metadata (upsert (upsert empty_db coin_batch) coin_as_medal))
  = [meta_of "Medals" (coin 1)].
Proof.
  apply (proj1 (upsert_replaces_whole_row (upsert empty_db coin_batch)
                  coin_as_medal coin_as_medal_typed)
           [] (meta_of "Medals" (coin 1)) []).
  - reflexivity.
  - intros y Hy. by apply elem_of_nil in Hy.
Defined.

(** ** Ids that are no integers, ids that are missing, frames that are empty *)

Lemma meta_vals_raise r e : meta_vals r = Raise e → e = ValueError.
Proof.
  unfold meta_vals. destruct (metadata.id r) as [|n|q|s]; simpl; [done..|].
  destruct (int_literal s); simpl; [done|]. by intros [= <-].
Qed.

Lemma build_records_text_id meta r s :
  r ∈ meta → metadata.id r = VText s → int_literal s = None →
  build_records meta_vals meta = Raise ValueError.
Proof.
  intros Hr Hid Hs. induction meta as [|r0 meta IH]; [by apply elem_of_nil in Hr|].
  simpl. destruct (meta_vals r0) as [v|e] eqn:Hv; simpl.
  - apply elem_of_cons in Hr as [<-|Hr].
    + unfold meta_vals in Hv. rewrite Hid in Hv. simpl in Hv.
      by rewrite Hs in Hv.
    + by rewrite (IH Hr).
  - by rewrite (meta_vals_raise r0 e Hv).
Qed.

Lemma no_digit_digits (s : string) (c : ascii) (acc : Z) :
  no_digit (String c s) = true → digits acc (String c s) = None.
Proof.
  simpl. intros [[_ Hc]%andb_true_iff _]%andb_true_iff.
  unfold is_digit in Hc. by destruct (digit c).
Qed.

Lemma no_digit_int_literal (s : string) :
  no_digit s = true → int_literal s = None.
Proof.
  destruct s as [|c s]; [done|]. intros Hs.
  pose proof (no_digit_digits s c 0 Hs) as Hc.
  assert (no_digit s = true) as Hs'
    by (simpl in Hs; by apply andb_true_iff in Hs as [_ ?]).
  assert (∀ acc, s ≠ "" → digits acc s = None) as Htail.
  { intros acc Hne. destruct s as [|c' s']; [done|].
    by apply no_digit_digits. }
  unfold int_literal.
  destruct c as [[] [] [] [] [] [] [] []]; try exact Hc;
    (destruct s as [|c' s']; [done|]; by rewrite Htail).
Qed.

(** X12.  A metadata frame with an id that is a text without any digit is
    refused with [ValueError] while the rows are being built: nothing has
    been written then, and the store is as it was. *)
Theorem insert_frames_text_id db meta media colors r s :
  r ∈ meta → metadata.id r = VText s → no_digit s = true →
  insert_frames db meta media colors = (db, Raise ValueError)
  ∧ upsert_metadata meta (get_conn db) = Raise ValueError.
Proof.
  intros Hr Hid Hs%no_digit_int_literal.
  assert (upsert_metadata meta (get_conn db) = Raise ValueError) as Hup.
  { rewrite upsert_metadata_eq.
    by rewrite (build_records_text_id meta r s Hr Hid Hs). }
  split; [|done]. unfold insert_frames. by rewrite Hup.
Qed.

Lemma insert_frames_text_id_witness :
  insert_frames (upsert empty_db coin_batch)
    [meta_of "Coins" (coin 3); meta_of "Coins" (artifact (VText "abc") "Coin" [])]
    [media_of (coin 3)] []
  = (upsert empty_db coin_batch, Raise ValueError)
  ∧ upsert_metadata
      [meta_of "Coins" (coin 3); meta_of "Coins" (artifact (VText "abc") "Coin" [])]
      (get_conn (upsert empty_db coin_batch))
    = Raise ValueError.
Proof.
  apply (insert_frames_text_id (upsert empty_db coin_batch) _ _ _
           (meta_of "Coins" (artifact (VText "abc") "Coin" [])) "abc").
  - right. left.
  - reflexivity.
  - reflexivity.
Defined.





(** X14.  An empty frame leaves its table as it was, whatever the other two
    frames are and whether the call returns or raises; with three empty
    frames the call returns and the store is unchanged. *)
Theorem insert_frames_empty_frames db meta media colors :
  artifact_metadata (insert_frames db [] media colors).1 = artifact_metadata db
  ∧ artifact_media (insert_frames db meta [] colors).1 = artifact_media db
  ∧ artifact_colors (insert_frames db meta media []).1 = artifact_colors db
  ∧ insert_frames db [] [] [] = (db, Ok ()).
Proof.
  split; [|split; [|split]].
  - destruct (insert_frames_cases db [] media colors)
      as [[e ->]|(recs & tm & td & tc & Hrecs & Htm & _ & _ & ->)]; [done|].
    simpl in *. injection Hrecs as <-. simpl in Htm. by injection Htm as <-.
  - destruct (insert_frames_cases db meta [] colors)
      as [[e ->]|(recs & tm & td & tc & _ & _ & Htd & _ & ->)]; [done|].
    simpl in *. by injection Htd as <-.
  - destruct (insert_frames_cases db meta media [])
      as [[e ->]|(recs & tm & td & tc & _ & _ & _ & Htc & ->)]; [done|].
    simpl in *. by injection Htc as <-.
  - by destruct db.
Qed.

(** ** The handlers *)

(** X15.  An insert that was refused by the store leaves the session as it
    was, the tracker included, and the store as it was: the classification
    is not marked, and the insert can be tried again. *)
Theorem insert_failed_keeps_state (c : string) (w : app) (e : exn) :
  events (insert c w)
    = events w ++ [call_insert_frames; error_insert_failed e] →
  state (insert c w) = state w
  ∧ store (insert c w) = store w
  ∧ lower c ∉ inserted_classifications (state (insert c w)).
Proof.
  unfold insert. destruct (_ && _).
  2:{ intros Hev. rewrite <- (app_nil_r (events w)) in Hev at 1.
      by apply app_inv_head in Hev. }
  case_decide as Hin; [by intros [=]%app_inv_head|].
  destruct (insert_frames_cases (store w) (meta_df (state w))
              (media_df (state w)) (colors_df (state w)))
    as [[e' ->]|(? & ? & ? & ? & _ & _ & _ & _ & ->)]; simpl.
  - done.
  - by intros [=]%app_inv_head.
Qed.

Lemma insert_failed_keeps_state_witness :
  state (insert "Coins" collected_text_id) = state collected_text_id
  ∧ store (insert "Coins" collected_text_id) = store collected_text_id
  ∧ lower "Coins"
    ∉ inserted_classifications (state (insert "Coins" collected_text_id)).
Proof.
  apply (insert_failed_keeps_state "Coins" collected_text_id ValueError).
  vm_compute. reflexivity.
Defined.

Lemma step_before_collect file w a :
  (∀ get c, a ≠ CollectData get c) →
  is_collected (state w) = false ∧ store w = init_db file
  ∧ inserted_classifications (state w) = ∅ ∧ events w = [] →
  is_collected (state (step w a)) = false ∧ store (step w a) = init_db file
  ∧ inserted_classifications (state (step w a)) = ∅ ∧ events (step w a) = [].
Proof.
  intros Ha (Hc & Hs & Ht & He).
  destruct a as [get c| | | |c]; simpl; try done.
  - by destruct (Ha get c).
  - unfold insert. rewrite Hc. by rewrite andb_false_r.
Qed.

(** X16.  As long as no "Collect Data" has been pressed, the other buttons
    write nothing: the store is the one the session started with, no
    classification is marked, and [insert_frames] has not been called. *)
Theorem nothing_inserted_before_collect (file : option database)
    (acts : list action) :
  Forall (λ a, ∀ get c, a ≠ CollectData get c) acts →
  store (run (app_start file) acts) = init_db file
  ∧ inserted_classifications (state (run (app_start file) acts)) = ∅
  ∧ call_insert_frames ∉ events (run (app_start file) acts).
Proof.
  intros Hacts.
  assert (∀ w,
    is_collected (state w) = false ∧ store w = init_db file
    ∧ inserted_classifications (state w) = ∅ ∧ events w = [] →
    is_collected (state (run w acts)) = false
    ∧ store (run w acts) = init_db file
    ∧ inserted_classifications (state (run w acts)) = ∅
    ∧ events (run w acts) = []) as Hrun.
  { induction Hacts as [|a acts Ha _ IH]; intros w Hw; simpl; [done|].
    by apply IH, step_before_collect. }
  destruct (Hrun (app_start file)) as (_ & ? & ? & Hev); [done|].
  repeat split; [done..|]. rewrite Hev. by intros ?%elem_of_nil.
Qed.

Lemma nothing_inserted_before_collect_witness :
  store (run (app_start None) [MigrateToSQL; Insert "Coins"; SQLQueries])
    = init_db None
  ∧ inserted_classifications
      (state (run (app_start None) [MigrateToSQL; Insert "Coins"; SQLQueries]))
    = ∅
  ∧ call_insert_frames
    ∉ events (run (app_start None) [MigrateToSQL; Insert "Coins"; SQLQueries]).
Proof.
  apply (nothing_inserted_before_collect None
           [MigrateToSQL; Insert "Coins"; SQLQueries]).
  repeat constructor; intros get c; discriminate.
Defined.

Lemma step_combined w a :
  NoDup (meta_key <$> combined_meta_df (state w))
  ∧ NoDup (media_key <$> combined_media_df (state w))
  ∧ NoDup (combined_colors_key <$> combined_colors_df (state w)) →
  NoDup (meta_key <$> combined_meta_df (state (step w a)))
  ∧ NoDup (media_key <$> combined_media_df (state (step w a)))
  ∧ NoDup (combined_colors_key <$> combined_colors_df (state (step w a))).
Proof.
  intros Hw. destruct a as [get c| | | |c]; simpl; try done.
  - unfold collect_data. repeat case_decide; [done..|].
    by destruct (fetch_data _ _ _ _) as [[sent [[[[meta media] colors] raw]|e]]|].
  - unfold insert. destruct (_ && _); [|done].
    case_decide; [done|].
    destruct (insert_frames _ _ _ _) as [db [[]|e]]; simpl; [|done].
    repeat split; apply drop_duplicates_NoDup.
Qed.

(** X17.  The combined tables shown after an insert never list a key
    twice: in every session the combined metadata have one row per id, the
    combined media one row per object id, the combined colours one row per
    object id and hue. *)
Theorem combined_frames_unique (file : option database) (acts : list action) :
  NoDup (meta_key <$> combined_meta_df (state (run (app_start file) acts)))
  ∧ NoDup (media_key <$> combined_media_df (state (run (app_start file) acts)))
  ∧ NoDup (combined_colors_key
             <$> combined_colors_df (state (run (app_start file) acts))).
Proof.
  assert (∀ w,
    NoDup (meta_key <$> combined_meta_df (state w))
    ∧ NoDup (media_key <$> combined_media_df (state w))
    ∧ NoDup (combined_colors_key <$> combined_colors_df (state w)) →
    NoDup (meta_key <$> combined_meta_df (state (run w acts)))
    ∧ NoDup (media_key <$> combined_media_df (state (run w acts)))
    ∧ NoDup (combined_colors_key <$> combined_colors_df (state (run w acts))))
    as Hrun.
  { induction acts as [|a acts IH]; intros w Hw; simpl; [done|].
    by apply IH, step_combined. }
  apply Hrun. repeat split; constructor.
Qed.

(** X18.  An insert that went through does not change the row the combined
    metadata table shows for an id it showed before: the combined table
    keeps the first row it got for an id, while the store holds the last one
    written. *)
Theorem combined_keeps_first_row (c : string) (w : app) l1 r l2 :
  events (insert c w) = events w ++ [call_insert_frames; success_inserted] →
  combined_meta_df (state w) = l1 ++ r :: l2 →
  (∀ y, y ∈ l1 → meta_key y ≠ meta_key r) →
  filter (λ x, meta_key x = meta_key r)
    (combined_meta_df (state (insert c w))) = [r].
Proof.
  unfold insert. destruct (_ && _).
  2:{ intros Hev. rewrite <- (app_nil_r (events w)) in Hev at 1.
      by apply app_inv_head in Hev. }
  case_decide as Hin; [by intros [=]%app_inv_head|].
  destruct (insert_frames _ _ _ _) as [db [[]|e]]; simpl;
    [|by intros [=]%app_inv_head].
  intros _ -> Hl1. rewrite <- app_assoc. simpl.
  by apply (drop_duplicates_first meta_key).
Qed.

Lemma combined_keeps_first_row_witness :
  filter (λ x, meta_key x
               = meta_key (meta_of "Coins"
                             (artifact (VInt 7) "first" [red (1 # 2); no_hue])))
    (combined_meta_df (state (insert "Medals" collected_again)))
  = [meta_of "Coins" (artifact (VInt 7) "first" [red (1 # 2); no_hue])].
Proof.
  apply (combined_keeps_first_row "Medals" collected_again [] _ []).
  - vm_compute. reflexivity.
  - reflexivity.
  - intros y Hy. by apply elem_of_nil in Hy.
Defined.

(** The same artifact in the store after that insert: the row of the later
    fetch. *)
Example store_has_last_row :
  artifact_metadata (store (insert "Medals" collected_again))
  = [meta_of "Medals" (artifact (VInt 7) "first" [red (1 # 2); no_hue])].
Proof. reflexivity. Qed.

(** ** Question 14 *)

Lemma digit_pretty_N_char (x : N) :
  (x < 10)%N → digit (pretty_N_char x) = Some (Z.of_N x).
Proof.
  intros Hx.
  assert (x = 0 ∨ x = 1 ∨ x = 2 ∨ x = 3 ∨ x = 4 ∨ x = 5 ∨ x = 6 ∨ x = 7
          ∨ x = 8 ∨ x = 9)%N as Hcases by lia.
  repeat (destruct Hcases as [->|Hcases]; [reflexivity|]).
  by subst.
Qed.

Lemma digits_pretty_N_go (x : N) : ∀ s,
  digits 0 (pretty_N_go x s) = digits (Z.of_N x) s.
Proof.
  induction (N.lt_wf_0 x) as [x _ IH]; intros s.
  assert (x = 0 ∨ 0 < x)%N as [->|Hx] by lia; [done|].
  rewrite pretty_N_go_step by done.
  rewrite IH by (by apply N.div_lt).
  simpl. rewrite digit_pretty_N_char by (by apply N.mod_lt).
  f_equal. pose proof (N.div_mod x 10). lia.
Qed.

Lemma all_digits_pretty_N_go (x : N) : ∀ s,
  all_digits s = true → all_digits (pretty_N_go x s) = true.
Proof.
  induction (N.lt_wf_0 x) as [x _ IH]; intros s Hs.
  assert (x = 0 ∨ 0 < x)%N as [->|Hx] by lia; [done|].
  rewrite pretty_N_go_step by done.
  apply IH; [by apply N.div_lt|].
  simpl. unfold is_digit.
  rewrite digit_pretty_N_char by (by apply N.mod_lt). done.
Qed.

Lemma pretty_N_go_nonempty (x : N) : ∀ c s,
  ∃ c' s', pretty_N_go x (String c s) = String c' s'.
Proof.
  induction (N.lt_wf_0 x) as [x _ IH]; intros c s.
  assert (x = 0 ∨ 0 < x)%N as [->|Hx] by lia; [by eexists _, _|].
  rewrite pretty_N_go_step by done. apply IH. by apply N.div_lt.
Qed.

(** The decimal form of a number that is not negative: digits, at least one,
    and read back it is the number. *)
Lemma pretty_decimal (n : Z) :
  0 ≤ n →
  all_digits (pretty n) = true
  ∧ digits 0 (pretty n) = Some n
  ∧ ∃ c s, pretty n = String c s ∧ is_digit c = true.
Proof.
  intros Hn. destruct n as [|p|p]; [by repeat split; eexists _, _| |lia].
  assert (pretty (Z.pos p) = pretty_N_go (N.pos p) "") as -> by done.
  assert (all_digits (pretty_N_go (N.pos p) "") = true) as Hall
    by (by apply all_digits_pretty_N_go).
  repeat split; [done|by rewrite digits_pretty_N_go|].
  rewrite pretty_N_go_step in * by lia.
  destruct (pretty_N_go_nonempty (N.pos p `div` 10)
              (pretty_N_char (N.pos p `mod` 10)) "") as (c & s & Hcs).
  rewrite Hcs in *. exists c, s. split; [done|].
  simpl in Hall. by apply andb_true_iff in Hall as [? _].
Qed.


Lemma int_literal_digit c s :
  is_digit c = true → int_literal (String c s) = digits 0 (String c s).
Proof.
  destruct c as [[] [] [] [] [] [] [] []]; by vm_compute.
Qed.





Lemma digits_nonneg (s : string) : ∀ acc n,
  0 ≤ acc → digits acc s = Some n → 0 ≤ n.
Proof.
  induction s as [|c s IH]; intros acc n Hacc; simpl.
  - intros [= <-]. done.
  - unfold digit. destruct (_ && _) eqn:Hc; [|done].
    apply andb_true_iff in Hc as [Hlo%Z.leb_le _].
    apply IH. lia.
Qed.

Lemma isdigit_int_literal (d : string) :
  isdigit d = true → int_literal d = digits 0 d.
Proof.
  destruct d as [|c d]; [done|]. simpl.
  intros [Hc _]%andb_true_iff. by apply int_literal_digit.
Qed.



(** X20.  Whatever is typed, a statement of question 14 that gets built is
    the fixed text around the decimal form of a number that is not negative:
    the typed text, stripped, was made of digits, and only digits reach the
    statement. *)
Theorem question_14_digits_only (artifact_id sql : string) :
  sql_to_run_14 artifact_id = Some sql →
  ∃ n, 0 ≤ n
       ∧ sql = sql_14 n
       ∧ all_digits (pretty n) = true
       ∧ isdigit (strip artifact_id) = true
       ∧ digits 0 (strip artifact_id) = Some n.
Proof.
  unfold sql_to_run_14.
  destruct (bool_decide _); simpl; [|done].
  destruct (isdigit (strip artifact_id)) eqn:Hd; [|done].
  rewrite (isdigit_int_literal _ Hd).
  destruct (digits 0 (strip artifact_id)) as [n|] eqn:Hn; simpl; [|done].
  intros [= <-]. exists n.
  assert (0 ≤ n) as H0 by (by eapply digits_nonneg; [|exact Hn]).
  repeat split; try done. by apply pretty_decimal.
Qed.

Lemma question_14_digits_only_witness :
  ∃ n, 0 ≤ n
       ∧ sql_14 7 = sql_14 n
       ∧ all_digits (pretty n) = true
       ∧ isdigit (strip " 007 ") = true
       ∧ digits 0 (strip " 007 ") = Some n.
Proof.
  apply (question_14_digits_only " 007 " (sql_14 7)). reflexivity.
Defined.

Lemma filter_fmap {A B} (f : A → B) (P : B → Prop) `{∀ y, Decision (P y)}
    (l : list A) :
  filter P (f <$> l) = f <$> filter (λ x, P (f x)) l.
Proof.
  induction l as [|x l IH]; [done|]. rewrite fmap_cons, !filter_cons.
  destruct (decide (P (f x))); by rewrite IH.
Qed.

(** X21.  What was inserted is what question 14 finds: after the upsert of
    a typed batch, the hue of a colour row of the batch is listed for its
    object exactly once, with the percentage of the last row the batch has
    for that object and hue. *)
Theorem question_14_finds_inserted (db : database) (b : batch) l1 r l2 (n : Z) :
  typed b →
  b.2 = l1 ++ r :: l2 →
  (∀ y, y ∈ l2 → colors_key y ≠ colors_key r) →
  colors.object_id r = VInt n →
  filter (λ hp, hp.1 = colors.hue r) (select_hue_percentage (upsert db b) n)
  = [(colors.hue r, colors.percentage r)].
Proof.
  intros Hb Hb2 Hl2 Hn.
  unfold select_hue_percentage, upsert.
  rewrite (insert_frames_typed_eq db b Hb). simpl.
  rewrite filter_fmap, list_filter_filter. simpl.
  rewrite (list_filter_iff _ (λ x, colors_key x = colors_key r)).
  - rewrite Hb2. by rewrite (fold_put_last colors_key).
  - intros x. unfold colors_key. rewrite Hn. split.
    + by intros [-> ->].
    + by intros [= -> ->].
Qed.

Lemma question_14_finds_inserted_witness :
  filter (λ hp, hp.1 = colors.hue (color_of (coin 1) (red (1 # 3))))
    (select_hue_percentage (upsert empty_db coin_batch) 1)
  = [(colors.hue (color_of (coin 1) (red (1 # 3))),
      colors.percentage (color_of (coin 1) (red (1 # 3))))].
Proof.
  apply (question_14_finds_inserted empty_db coin_batch
           [color_of (coin 1) (red (1 # 2)); color_of (coin 2) (red (1 # 5))]
           (color_of (coin 1) (red (1 # 3))) [] 1).
  - exact coin_batch_typed.
  - reflexivity.
  - intros y Hy. by apply elem_of_nil in Hy.
  - reflexivity.
Defined.

(** X22.  Over a store in which no two colour rows share object id and hue,
    question 14 lists no hue twice for an artifact. *)
Theorem question_14_hues_distinct (db : database) (n : Z) :
  unique_keys db →
  NoDup (fst <$> select_hue_percentage db n).
Proof.
  intros (_ & _ & Hc). unfold select_hue_percentage.
  rewrite <- list_fmap_compose.
  apply (NoDup_fmap_1 (pair (VInt n))).
  rewrite <- list_fmap_compose.
  erewrite list_fmap_ext.
  - eapply sublist_NoDup; [exact Hc|].
    apply fmap_sublist, (sublist_filter (λ r, colors.object_id r = VInt n)).
  - intros i r [Hr _]%list_elem_of_lookup_2%list_elem_of_filter.
    simpl. unfold colors_key. by rewrite Hr.
Qed.

Lemma question_14_hues_distinct_witness :
  NoDup (fst <$> select_hue_percentage (upsert empty_db coin_batch) 1).
Proof.
  apply (question_14_hues_distinct (upsert empty_db coin_batch) 1).
  unfold upsert. apply insert_frames_unique_keys.
  - repeat constructor.
  - repeat split; constructor.
Defined.
